(** * The FHIR event forwarder: a shallow embedding of [index.js]

    The mediator receives [POST /event { uuid }], suppresses duplicates
    through the process-wide [seen] set, fetches the Encounter, its
    Patient and eleven kinds of related resources from the FHIR proxy and
    PUTs every one of them to the destination node through a bounded
    retry.  The program embedded here is the current one, the first in
    [index.js]; of the copy that logs every step only [retryRequest]
    differs in what it does, and is embedded as [Debug.retryRequest].
    Calls to [logStep] and [console] are left out, except for the reads
    of [err.message] among their arguments, which can raise.

    JavaScript values are modelled as trees that carry the heap address
    of every array and object; asynchronous code is modelled in a state
    and exception monad over the process state, with one request handled
    from start to finish (the interleaving of concurrent requests is not
    modelled).  The network, the file system and the JSON codec are
    parameters gathered in [Env]. *)

From Stdlib Require Import String Ascii List ZArith Bool Arith Lia.
From Stdlib Require Import DecimalString.
Import ListNotations.
Local Open Scope string_scope.
Local Open Scope list_scope.

Set Implicit Arguments.
Set Warnings "-register-all".

(* ================================================================== *)
(** ** JavaScript values *)

(** A value as the program sees it after [JSON.parse]: primitives, and
    arrays and objects that live at a heap address [ref].  Numbers are
    the integral ones. *)
Inductive value : Type :=
| VUndef
| VNull
| VBool (b : bool)
| VNum (n : Z)
| VStr (s : string)
| VArr (ref : nat) (items : list value)
| VObj (ref : nat) (fields : list (string * value)).

(** An [Error] object; only its [name] and [message] are read. *)
Record error : Type := mkError { err_name : string; err_message : string }.

(** What a [throw] (or a rejected promise) carries: [retryRequest] can
    raise [null], everything else raises an [Error]. *)
Inductive thrown : Type :=
| ThrowNull
| ThrowErr (e : error).

Definition TypeError (msg : string) : thrown := ThrowErr (mkError "TypeError" msg).
Definition AxiosError (msg : string) : thrown := ThrowErr (mkError "AxiosError" msg).

(** [!!v] *)
Definition truthy (v : value) : bool :=
  match v with
  | VUndef | VNull => false
  | VBool b => b
  | VNum n => negb (Z.eqb n 0)
  | VStr s => negb (String.eqb s "")
  | VArr _ _ | VObj _ _ => true
  end.

Definition nullish (v : value) : bool :=
  match v with
  | VUndef | VNull => true
  | _ => false
  end.

(** The comparison used by [Set.prototype.has] and [add]: primitives by
    value, arrays and objects by identity. *)
Definition SameValueZero (a b : value) : bool :=
  match a, b with
  | VUndef, VUndef => true
  | VNull, VNull => true
  | VBool x, VBool y => Bool.eqb x y
  | VNum x, VNum y => Z.eqb x y
  | VStr x, VStr y => String.eqb x y
  | VArr r _, VArr r' _ => Nat.eqb r r'
  | VObj r _, VObj r' _ => Nat.eqb r r'
  | _, _ => false
  end.

Fixpoint lookup (p : string) (fields : list (string * value)) : value :=
  match fields with
  | [] => VUndef
  | (k, v) :: rest => if String.eqb k p then v else lookup p rest
  end.

Definition has_field (p : string) (fields : list (string * value)) : bool :=
  existsb (fun kv => String.eqb (fst kv) p) fields.

Definition string_of_Z (n : Z) : string := NilZero.string_of_int (Z.to_int n).

(** [String(v)], as a template literal applies it; [None] when the
    conversion raises its [TypeError].  An array joins its elements with
    commas, [null] and [undefined] elements giving the empty string; a
    parsed object prints as [[object Object]] unless it has an own
    [toString] field, which no parsed value can make callable. *)
Fixpoint ToString (v : value) : option string :=
  match v with
  | VUndef => Some "undefined"
  | VNull => Some "null"
  | VBool true => Some "true"
  | VBool false => Some "false"
  | VNum n => Some (string_of_Z n)
  | VStr s => Some s
  | VArr _ items =>
      (fix join (l : list value) : option string :=
         match l with
         | [] => Some ""
         | x :: rest =>
             let elem := if nullish x then Some "" else ToString x in
             match elem, rest with
             | None, _ => None
             | Some sx, [] => Some sx
             | Some sx, _ :: _ =>
                 match join rest with
                 | None => None
                 | Some sr => Some (sx ++ "," ++ sr)%string
                 end
             end
         end) items
  | VObj _ fields =>
      if has_field "toString" fields then None else Some "[object Object]"
  end.

(** [s.split(sep)] for a one-character separator. *)
Fixpoint split (sep : ascii) (s : string) : list string :=
  match s with
  | EmptyString => [""]
  | String c r =>
      if Ascii.eqb c sep then "" :: split sep r
      else match split sep r with
           | h :: t => String c h :: t
           | [] => [String c ""]
           end
  end.

(** [a.pop()] on a array of strings, [undefined] when it is empty. *)
Definition pop (l : list string) : value :=
  match rev l with
  | [] => VUndef
  | x :: _ => VStr x
  end.

Fixpoint chars (s : string) : list value :=
  match s with
  | EmptyString => []
  | String c r => VStr (String c "") :: chars r
  end.

(* ================================================================== *)
(** ** The environment and the process state *)

(** The collaborators of the program: the two HTTP peers reached through
    axios, the file system and the JSON codec.  [World] is the state of
    the network peers and answers deterministically from the requests it
    has received; timers do not act on it.  An axios call either
    rejects with a message or resolves (a 2xx answer). *)
Record Env : Type := mkEnv {
  World : Type;
  Disk : Type;
  axios_get : string -> World -> World * (string + value);
  axios_put : string -> value -> World -> World * (string + Z);
  fs_existsSync : string -> Disk -> bool;
  fs_readFileSync : string -> Disk -> thrown + string;
  fs_writeFile : string -> string -> Disk -> Disk * option error;
  JSON_parse : string -> thrown + value;
  JSON_stringify : value -> string;
  FHIR_PROXY : string;
  FHIR_NODE_URL : string
}.

(** What the process does to the outside, in order. *)
Inductive event : Type :=
| EvGet (url : string) (answer : string + value)
| EvPut (url : string) (body : value) (answer : string + Z)
| EvWait (ms : nat)
| EvWriteFile (path : string) (content : string).

Inductive outcome (A : Type) : Type :=
| Return (a : A)
| Throw (t : thrown).
Arguments Return {A} a.
Arguments Throw {A} t.

Section Forwarder.

Variable E : Env.

(** [seen] is the module-level [Set], in insertion order; [results] is
    the array the handler allocates for the request it is serving. *)
#[projections(primitive)]
Record state : Type := mkState {
  net : World E;
  disk : Disk E;
  seen : list value;
  results : list Z;
  trace : list event
}.

Definition M (A : Type) : Type := state -> outcome A * state.

Definition ret {A} (a : A) : M A := fun s => (Return a, s).

Definition throw {A} (t : thrown) : M A := fun s => (Throw t, s).

Definition bind {A B} (m : M A) (f : A -> M B) : M B :=
  fun s =>
    match m s with
    | (Return a, s') => f a s'
    | (Throw t, s') => (Throw t, s')
    end.

(** [try { m } catch (err) { h err }] *)
Definition try_catch {A} (m : M A) (h : thrown -> M A) : M A :=
  fun s =>
    match m s with
    | (Return a, s') => (Return a, s')
    | (Throw t, s') => h t s'
    end.

End Forwarder.

Arguments mkState {E} net disk seen results trace.
Arguments ret {E A} a.
Arguments throw {E A} t.
Arguments bind {E A B} m f.
Arguments try_catch {E A} m h.

Notation "x <- m ;; k" := (bind m (fun x => k))
  (at level 61, m at next level, right associativity).
Notation "m ;;; k" := (bind m (fun _ => k))
  (at level 61, right associativity).

(* ================================================================== *)
(** ** Language primitives in the monad *)

Section Primitives.

Context {E : Env}.

Definition modify (f : state E -> state E) : M E unit :=
  fun s => (Return tt, f s).

Definition emit (ev : event) : M E unit :=
  modify (fun s => mkState (net s) (disk s) (seen s) (results s) (trace s ++ [ev])).

(** [v.p] for the property names this program reads ([uuid], [subject],
    [reference], [resourceType], [id], [entry], [resource]), none of
    which a prototype defines: only an object can have them, and reading
    from [null] or [undefined] raises. *)
Definition get_prop (v : value) (p : string) : M E value :=
  match v with
  | VUndef => throw (TypeError ("Cannot read properties of undefined (reading '" ++ p ++ "')")%string)
  | VNull => throw (TypeError ("Cannot read properties of null (reading '" ++ p ++ "')")%string)
  | VObj _ fields => ret (lookup p fields)
  | _ => ret VUndef
  end.

(** [v?.p] *)
Definition opt_prop (v : value) (p : string) : M E value :=
  if nullish v then ret VUndef else get_prop v p.

(** [err.message] *)
Definition message (t : thrown) : M E string :=
  match t with
  | ThrowNull => throw (TypeError "Cannot read properties of null (reading 'message')")
  | ThrowErr e => ret (err_message e)
  end.

(** One substitution [${v}] of a template literal. *)
Definition subst (v : value) : M E string :=
  match ToString v with
  | None => throw (TypeError "Cannot convert object to primitive value")
  | Some str => ret str
  end.

(** The values a [for ... of] visits. *)
Definition iterate (v : value) : M E (list value) :=
  match v with
  | VArr _ items => ret items
  | VStr str => ret (chars str)
  | _ => throw (TypeError "value is not iterable")
  end.

(** [for (const x of xs) body x] *)
Fixpoint for_of {X} (xs : list X) (body : X -> M E unit) : M E unit :=
  match xs with
  | [] => ret tt
  | x :: rest => body x ;;; for_of rest body
  end.

(** [await new Promise(res => setTimeout(res, ms))] *)
Definition setTimeout (ms : nat) : M E unit := emit (EvWait ms).

(** [await axios.get(url)], returning [resp.data]. *)
Definition axios_get_data (url : string) : M E value :=
  fun s =>
    let (w, answer) := axios_get E url (net s) in
    let s' := mkState w (disk s) (seen s) (results s) (trace s ++ [EvGet url answer]) in
    match answer with
    | inl msg => (Throw (AxiosError msg), s')
    | inr data => (Return data, s')
    end.

(** [await axios.put(url, body, ...)], returning [resp.status]. *)
Definition axios_put_status (url : string) (body : value) : M E Z :=
  fun s =>
    let (w, answer) := axios_put E url body (net s) in
    let s' := mkState w (disk s) (seen s) (results s) (trace s ++ [EvPut url body answer]) in
    match answer with
    | inl msg => (Throw (AxiosError msg), s')
    | inr status => (Return status, s')
    end.

(** [results.push(x)] *)
Definition results_push (x : Z) : M E unit :=
  modify (fun s => mkState (net s) (disk s) (seen s) (results s ++ [x]) (trace s)).

(** [const results = []] *)
Definition results_new : M E unit :=
  modify (fun s => mkState (net s) (disk s) (seen s) [] (trace s)).

Definition results_length : M E nat :=
  fun s => (Return (length (results s)), s).

(** [seen.has(v)] *)
Definition Set_has (l : list value) (v : value) : bool :=
  existsb (SameValueZero v) l.

(** [seen.add(v)] *)
Definition Set_add (l : list value) (v : value) : list value :=
  if Set_has l v then l else l ++ [v].

(** [new Set(items)] *)
Definition Set_of (items : list value) : list value :=
  fold_left Set_add items [].

Definition seen_has (v : value) : M E bool :=
  fun s => (Return (Set_has (seen s) v), s).

Definition seen_add (v : value) : M E unit :=
  modify (fun s => mkState (net s) (disk s) (Set_add (seen s) v) (results s) (trace s)).

End Primitives.

(* ================================================================== *)
(** ** The program *)

Section Program.

Context {E : Env}.

Definition MAX_RETRIES : nat := 3.

Definition SEEN_FILE : string := "./seen.json".

Definition seen_assign (l : list value) : M E unit :=
  modify (fun s => mkState (net s) (disk s) l (results s) (trace s)).

Definition existsSync (path : string) : M E bool :=
  fun s => (Return (fs_existsSync E path (disk s)), s).

Definition readFileSync (path : string) : M E string :=
  fun s =>
    match fs_readFileSync E path (disk s) with
    | inl t => (Throw t, s)
    | inr data => (Return data, s)
    end.

Definition parse (data : string) : M E value :=
  match JSON_parse E data with
  | inl t => throw t
  | inr v => ret v
  end.

(** [new Set(v)]: empty for [null] and [undefined], otherwise the
    distinct values [v] iterates over. *)
Definition new_Set (v : value) : M E (list value) :=
  if nullish v then ret []
  else items <- iterate v ;; ret (Set_of items).

(** The module-level initialisation of [seen]:
    [let seen = new Set(); try { if (fs.existsSync(SEEN_FILE)) seen =
    new Set(JSON.parse(fs.readFileSync(SEEN_FILE))) } catch {}] *)
Definition load_seen : M E unit :=
  seen_assign [] ;;;
  try_catch
    (present <- existsSync SEEN_FILE ;;
     if present then
       data <- readFileSync SEEN_FILE ;;
       parsed <- parse data ;;
       set <- new_Set parsed ;;
       seen_assign set
     else ret tt)
    (fun _ => ret tt).

(** [saveSeen]: the write is started and the function returns; the
    callback only reports a failure on the console.  The address given
    to the temporary array [[...seen]] plays no role. *)
Definition saveSeen : M E unit :=
  fun s =>
    let content := JSON_stringify E (VArr 0 (seen s)) in
    let (d, err) := fs_writeFile E SEEN_FILE content (disk s) in
    (Return tt,
     mkState (net s) d (seen s) (results s)
             (trace s ++ [EvWriteFile SEEN_FILE content])).

(** The loop of [retryRequest].  [remaining] is [maxRetries - attempt],
    so that [attempt < maxRetries] reads [remaining <> 0]. *)
Fixpoint retry_loop {A} (fn : M E A) (remaining attempt : nat)
         (lastErr : thrown) : M E A :=
  match remaining with
  | O => throw lastErr
  | S remaining' =>
      try_catch fn (fun err =>
        let lastErr := err in
        let attempt := S attempt in
        let wait := 500 * attempt in
        message err ;;;
        setTimeout wait ;;;
        retry_loop fn remaining' attempt lastErr)
  end.

Definition retryRequest {A} (fn : M E A) (maxRetries : nat) : M E A :=
  retry_loop fn maxRetries 0 ThrowNull.

Definition proxy_url (path : string) : string :=
  (FHIR_PROXY E ++ "/fhir" ++ path)%string.

Definition getFromProxy (path : string) : M E value :=
  let url := proxy_url path in
  axios_get_data url.

Definition node_url (sType sId : string) : string :=
  (FHIR_NODE_URL E ++ "/fhir/" ++ sType ++ "/" ++ sId)%string.

Definition putToNode (resource : value) : M E Z :=
  resourceType <- get_prop resource "resourceType" ;;
  sType <- subst resourceType ;;
  id <- get_prop resource "id" ;;
  sId <- subst id ;;
  let url := node_url sType sId in
  retryRequest (axios_put_status url resource) MAX_RETRIES.

(** What [res.status(code).json(body)] sends. *)
Record response : Type := mkResponse {
  code : nat;
  json : list (string * value)
}.

Definition missing_response : response :=
  mkResponse 400 [("error", VStr "Falta uuid")].

Definition duplicate_response (uuid : value) : response :=
  mkResponse 200 [("status", VStr "duplicado"); ("uuid", uuid)].

Definition ok_response (uuid : value) (sent : nat) : response :=
  mkResponse 200 [("status", VStr "ok"); ("uuid", uuid);
                  ("sent", VNum (Z.of_nat sent))].

Definition error_response (msg : string) : response :=
  mkResponse 500 [("error", VStr msg)].

(** [encounter.subject?.reference?.split('/').pop()] *)
Definition patientId_of (encounter : value) : M E value :=
  subject <- get_prop encounter "subject" ;;
  if nullish subject then ret VUndef else
  reference <- get_prop subject "reference" ;;
  if nullish reference then ret VUndef else
  match reference with
  | VStr r => ret (pop (split "/" r))
  | _ => throw (TypeError "encounter.subject?.reference?.split is not a function")
  end.

(** The array literal [resourceQueries], given the text [u] that the
    template literals print for [uuid]. *)
Definition resourceQueries_of (u : string) : list (string * string) :=
  [ ("Observation", "/Observation?encounter=" ++ u);
    ("Condition", "/Condition?encounter=" ++ u);
    ("Procedure", "/Procedure?encounter=" ++ u);
    ("MedicationRequest", "/MedicationRequest?encounter=" ++ u);
    ("Medication", "/Medication?encounter=" ++ u);
    ("AllergyIntolerance", "/AllergyIntolerance?encounter=" ++ u);
    ("DiagnosticReport", "/DiagnosticReport?encounter=" ++ u);
    ("Immunization", "/Immunization?encounter=" ++ u);
    ("CarePlan", "/CarePlan?encounter=" ++ u);
    ("Appointment", "/Appointment?encounter=" ++ u);
    ("DocumentReference", "/DocumentReference?encounter=" ++ u) ]%string.

(** Each of the eleven templates converts [uuid] the same way and
    without effect; the conversion is written once. *)
Definition resourceQueries (uuid : value) : M E (list (string * string)) :=
  u <- subst uuid ;;
  ret (resourceQueries_of u).

(** The body of the inner loop, for one [entry] of a bundle:
    [if (entry.resource?.resourceType && entry.resource?.id)
       results.push(await putToNode(entry.resource))] *)
Definition deliver_entry (entry : value) : M E unit :=
  resource <- get_prop entry "resource" ;;
  resourceType <- opt_prop resource "resourceType" ;;
  id <- (if truthy resourceType then opt_prop resource "id" else ret resourceType) ;;
  if truthy id then
    status <- putToNode resource ;;
    results_push status
  else ret tt.

(** The [try] block of the outer loop, for one related resource type. *)
Definition fetch_and_deliver (q : string) : M E unit :=
  bundle <- getFromProxy q ;;
  entry <- get_prop bundle "entry" ;;
  if truthy entry then
    entries <- iterate entry ;;
    for_of entries deliver_entry
  else ret tt.

(** The body of the outer loop, with its [catch]. *)
Definition process_type (query : string * string) : M E unit :=
  let (type, q) := query in
  try_catch (fetch_and_deliver q) (fun e => message e ;;; ret tt).

(** Step 1 of the [try] block: the Encounter. *)
Definition replicate_encounter (uuid : value) : M E value :=
  u <- subst uuid ;;
  encounter <- getFromProxy ("/Encounter/" ++ u) ;;
  status <- putToNode encounter ;;
  results_push status ;;;
  ret encounter.

(** Step 2: the Patient the Encounter refers to, if any. *)
Definition replicate_patient (encounter : value) : M E unit :=
  patientId <- patientId_of encounter ;;
  if truthy patientId then
    p <- subst patientId ;;
    patient <- getFromProxy ("/Patient/" ++ p) ;;
    status <- putToNode patient ;;
    results_push status
  else ret tt.

(** Step 3: the related resources, and the answer. *)
Definition replicate_related (uuid : value) : M E response :=
  queries <- resourceQueries uuid ;;
  for_of queries process_type ;;;
  sent <- results_length ;;
  ret (ok_response uuid sent).

(** The [try] block of the handler. *)
Definition replicate (uuid : value) : M E response :=
  encounter <- replicate_encounter uuid ;;
  replicate_patient encounter ;;;
  replicate_related uuid.

(** The outer [catch] block of the handler. *)
Definition handler_catch (err : thrown) : M E response :=
  msg <- message err ;;
  ret (error_response msg).

(** [app.post('/event', async (req, res) => ...)], applied to [req.body]. *)
Definition handler (body : value) : M E response :=
  uuid <- get_prop body "uuid" ;;
  if negb (truthy uuid) then ret missing_response
  else
    duplicate <- seen_has uuid ;;
    if duplicate then ret (duplicate_response uuid)
    else
      seen_add uuid ;;;
      saveSeen ;;;
      results_new ;;;
      try_catch (replicate uuid) handler_catch.

(** Requests served one after the other. *)
Definition serve (bodies : list value) (s : state E) : state E :=
  fold_left (fun s body => snd (handler body s)) bodies s.

End Program.

Arguments proxy_url : clear implicits.
Arguments node_url : clear implicits.
Arguments MAX_RETRIES : clear implicits.

(** The variant of [retryRequest] in the instrumented copy of the
    program: it waits only when another attempt follows, and reads
    [lastErr.message] before raising. *)
Module Debug.
Section Program.

Context {E : Env}.

Fixpoint retry_loop {A} (fn : M E A) (maxRetries remaining attempt : nat)
         (lastErr : thrown) : M E A :=
  match remaining with
  | O => message lastErr ;;; throw lastErr
  | S remaining' =>
      try_catch fn (fun err =>
        let lastErr := err in
        let attempt := S attempt in
        let wait := 500 * attempt in
        message err ;;;
        (if Nat.ltb attempt maxRetries then setTimeout wait else ret tt) ;;;
        retry_loop fn maxRetries remaining' attempt lastErr)
  end.

Definition retryRequest {A} (fn : M E A) (maxRetries : nat) : M E A :=
  retry_loop fn maxRetries maxRetries 0 ThrowNull.

(** The rest of the instrumented copy.  Of its log calls, the ones kept
    are those whose arguments can raise: [JSON.stringify(v).length],
    which raises on [undefined], and the reads of [error.message]. *)

(** [JSON.stringify(v).length] *)
Definition stringify_length (v : value) : M E unit :=
  match v with
  | VUndef => throw (TypeError "Cannot read properties of undefined (reading 'length')")
  | _ => ret tt
  end.

(** [catch (error) { logStep(..., error.message); throw error }] *)
Definition log_and_rethrow {A} (error : thrown) : M E A :=
  message error ;;; throw error.

(** The start-up load; its [catch] logs [error.message]. *)
Definition load_seen : M E unit :=
  seen_assign [] ;;;
  try_catch
    (present <- existsSync SEEN_FILE ;;
     if present then
       data <- readFileSync SEEN_FILE ;;
       parsed <- parse data ;;
       set <- new_Set parsed ;;
       seen_assign set
     else ret tt)
    (fun error => message error ;;; ret tt).

Definition getFromProxy (path : string) : M E value :=
  let url := proxy_url E path in
  try_catch
    (data <- axios_get_data url ;;
     stringify_length data ;;;
     ret data)
    log_and_rethrow.

Definition putToNode (resource : value) : M E Z :=
  opt_prop resource "resourceType" ;;;
  opt_prop resource "id" ;;;
  stringify_length resource ;;;
  resourceType <- get_prop resource "resourceType" ;;
  sType <- subst resourceType ;;
  id <- get_prop resource "id" ;;
  sId <- subst id ;;
  let url := node_url E sType sId in
  retryRequest
    (try_catch (axios_put_status url resource) log_and_rethrow)
    (MAX_RETRIES).

Definition deliver_entry (entry : value) : M E unit :=
  resource <- get_prop entry "resource" ;;
  resourceType <- opt_prop resource "resourceType" ;;
  id <- (if truthy resourceType then opt_prop resource "id" else ret resourceType) ;;
  if truthy id then
    status <- putToNode resource ;;
    results_push status
  else ret tt.

Definition fetch_and_deliver (q : string) : M E unit :=
  bundle <- getFromProxy q ;;
  entry <- get_prop bundle "entry" ;;
  if truthy entry then
    entries <- iterate entry ;;
    for_of entries deliver_entry
  else ret tt.

Definition process_type (query : string * string) : M E unit :=
  let (type, q) := query in
  try_catch (fetch_and_deliver q) (fun e => message e ;;; ret tt).

Definition replicate_encounter (uuid : value) : M E value :=
  u <- subst uuid ;;
  encounter <- getFromProxy ("/Encounter/" ++ u) ;;
  status <- putToNode encounter ;;
  results_push status ;;;
  ret encounter.

Definition replicate_patient (encounter : value) : M E unit :=
  patientId <- patientId_of encounter ;;
  if truthy patientId then
    p <- subst patientId ;;
    patient <- getFromProxy ("/Patient/" ++ p) ;;
    status <- putToNode patient ;;
    results_push status
  else ret tt.

Definition replicate_related (uuid : value) : M E response :=
  queries <- resourceQueries uuid ;;
  for_of queries process_type ;;;
  sent <- results_length ;;
  ret (ok_response uuid sent).

Definition replicate (uuid : value) : M E response :=
  encounter <- replicate_encounter uuid ;;
  replicate_patient encounter ;;;
  replicate_related uuid.

(** The handler of the instrumented copy; its [saveSeen] and its outer
    [catch] do what those of the main program do. *)
Definition handler (body : value) : M E response :=
  uuid <- get_prop body "uuid" ;;
  stringify_length body ;;;
  if negb (truthy uuid) then ret missing_response
  else
    duplicate <- seen_has uuid ;;
    if duplicate then ret (duplicate_response uuid)
    else
      seen_add uuid ;;;
      saveSeen ;;;
      results_new ;;;
      try_catch (replicate uuid) handler_catch.

End Program.
End Debug.

(* ================================================================== *)
(** ** Vocabulary of the statements *)

Section Vocabulary.

Context {E : Env}.

(** [msgs] are the rejection messages of [length msgs] consecutive
    failing PUTs of [body] to [url], which take the peers from [w] to
    [w']. *)
Fixpoint failing_puts (url : string) (body : value) (msgs : list string)
         (w w' : World E) : Prop :=
  match msgs with
  | [] => w' = w
  | m :: ms =>
      snd (axios_put E url body w) = inl m /\
      failing_puts url body ms (fst (axios_put E url body w)) w'
  end.

(** The error of the last of the failed attempts [msgs], [d] if none. *)
Definition last_error (msgs : list string) (d : thrown) : thrown :=
  last (map AxiosError msgs) d.

(** The events of failed attempts number [attempt + 1], [attempt + 2],
    ... of the main program: every failure is followed by its wait. *)
Fixpoint backoff (url : string) (body : value) (attempt : nat)
         (msgs : list string) : list event :=
  match msgs with
  | [] => []
  | m :: ms =>
      EvPut url body (inl m) :: EvWait (500 * S attempt)
            :: backoff url body (S attempt) ms
  end.

(** The same for the instrumented copy: no wait after attempt number
    [maxRetries]. *)
Fixpoint backoff_guarded (url : string) (body : value)
         (maxRetries attempt : nat) (msgs : list string) : list event :=
  match msgs with
  | [] => []
  | m :: ms =>
      EvPut url body (inl m)
        :: (if Nat.ltb (S attempt) maxRetries then [EvWait (500 * S attempt)] else [])
        ++ backoff_guarded url body maxRetries (S attempt) ms
  end.

(** The waits of a trace, and the number of its PUT attempts. *)
Fixpoint waits (evs : list event) : list nat :=
  match evs with
  | [] => []
  | EvWait ms :: rest => ms :: waits rest
  | _ :: rest => waits rest
  end.

Fixpoint put_attempts (evs : list event) : nat :=
  match evs with
  | [] => 0
  | EvPut _ _ _ :: rest => S (put_attempts rest)
  | _ :: rest => put_attempts rest
  end.

(** The number of PUTs that were answered with success. *)
Fixpoint delivered (evs : list event) : nat :=
  match evs with
  | [] => 0
  | EvPut _ _ (inr _) :: rest => S (delivered rest)
  | _ :: rest => delivered rest
  end.

(** The GET requests of a trace. *)
Fixpoint fetches (evs : list event) : list string :=
  match evs with
  | [] => []
  | EvGet url _ :: rest => url :: fetches rest
  | _ :: rest => fetches rest
  end.

(** [v.p] where it cannot raise. *)
Definition prop (v : value) (p : string) : value :=
  match v with
  | VObj _ fields => lookup p fields
  | _ => VUndef
  end.

Definition with_net (w : World E) (evs : list event) (s : state E) : state E :=
  mkState w (disk s) (seen s) (results s) (trace s ++ evs).

Definition set_disk (d : Disk E) (s : state E) : state E :=
  mkState (net s) d (seen s) (results s) (trace s).

(** [spec q k m]: the computation [m] leaves [seen] and the disk alone
    and does not look at the disk, never raises [null], only appends to
    the trace and to [results], and pushes one status per successful
    PUT, except for [k] statuses it returns to its caller; with
    [q = true] it fetches nothing. *)
Definition spec {A} (q : bool) (k : nat) (m : M E A) : Prop :=
  forall s,
    seen (snd (m s)) = seen s /\
    disk (snd (m s)) = disk s /\
    fst (m s) <> Throw ThrowNull /\
    (forall d, m (set_disk d s) = (fst (m s), set_disk d (snd (m s)))) /\
    exists evs rs,
      trace (snd (m s)) = trace s ++ evs /\
      results (snd (m s)) = results s ++ rs /\
      length rs + match fst (m s) with Return _ => k | Throw _ => 0 end
      = delivered evs /\
      (q = true -> fetches evs = []).

End Vocabulary.

Unset Implicit Arguments.

Section Outcomes.

Context {E : Env}.

(** How a run of the retry loop ends, whatever the peer answers. *)
Inductive retry_run (url : string) (body : value) (remaining attempt : nat)
          (lastErr : thrown) (s : state E) : outcome Z * state E -> Prop :=
| run_delivered msgs w' status :
    failing_puts url body msgs (net s) w' ->
    length msgs < remaining ->
    snd (axios_put E url body w') = inr status ->
    retry_run url body remaining attempt lastErr s
      (Return status,
       with_net (fst (axios_put E url body w'))
                (backoff url body attempt msgs ++ [EvPut url body (inr status)]) s)
| run_exhausted msgs w' :
    failing_puts url body msgs (net s) w' ->
    length msgs = remaining ->
    retry_run url body remaining attempt lastErr s
      (Throw (last_error msgs lastErr),
       with_net w' (backoff url body attempt msgs) s).

(** The state in which the [try] block of an admitted event starts. *)
Definition recorded (uuid : value) (s : state E) : state E :=
  let content := JSON_stringify E (VArr 0 (Set_add (seen s) uuid)) in
  mkState (net s)
          (fst (fs_writeFile E SEEN_FILE content (disk s)))
          (Set_add (seen s) uuid)
          []
          (trace s ++ [EvWriteFile SEEN_FILE content]).

(** How the handler ends on an admitted event. *)
Inductive handled (uuid : value) (s : state E) : outcome response * state E -> Prop :=
| handled_ok s' :
    replicate uuid (recorded uuid s) = (Return (ok_response uuid (length (results s'))), s') ->
    handled uuid s (Return (ok_response uuid (length (results s'))), s')
| handled_error e s' :
    replicate uuid (recorded uuid s) = (Throw (ThrowErr e), s') ->
    handled uuid s (Return (error_response (err_message e)), s').

(** [results.push(status)] on a state. *)
Definition pushed (status : Z) (s : state E) : state E :=
  mkState (net s) (disk s) (seen s) (results s ++ [status]) (trace s).

(** The state right after a fetch of [path]. *)
Definition fetched (path : string) (s : state E) : state E :=
  with_net (fst (axios_get E (proxy_url E path) (net s)))
           [EvGet (proxy_url E path) (snd (axios_get E (proxy_url E path) (net s)))] s.

(** The Encounter names no Patient: [subject] or its [reference] is
    [null] or absent. *)
Definition no_subject_reference (encounter : value) : bool :=
  nullish (prop encounter "subject")
  || nullish (prop (prop encounter "subject") "reference").

End Outcomes.

Section MoreVocabulary.

Context {E : Env}.

(** A trace without its waits. *)
Fixpoint no_waits (evs : list event) : list event :=
  match evs with
  | [] => []
  | EvWait _ :: rest => no_waits rest
  | ev :: rest => ev :: no_waits rest
  end.

(** The time a trace spends waiting, in ms. *)
Definition total_wait (evs : list event) : nat := list_sum (waits evs).

(** No two members of [l] are the same for [Set]. *)
Fixpoint distinct (l : list value) : bool :=
  match l with
  | [] => true
  | x :: rest => negb (existsb (SameValueZero x) rest) && distinct rest
  end.

Fixpoint contains (c : ascii) (s : string) : bool :=
  match s with
  | EmptyString => false
  | String c' rest => Ascii.eqb c' c || contains c rest
  end.

(** The entries of a bundle that the inner loop can visit with effect:
    the items of [entry] when it is an array. *)
Definition entries_of (bundle : value) : list value :=
  match prop bundle "entry" with
  | VArr _ items => items
  | _ => []
  end.

(** [entry.resource?.resourceType && entry.resource?.id] is truthy. *)
Definition complete (entry : value) : bool :=
  truthy (prop (prop entry "resource") "resourceType")
  && truthy (prop (prop entry "resource") "id").

(** [m] appends to the trace, and at most [n] GETs. *)
Definition fetches_at_most {A} (n : nat) (m : M E A) : Prop :=
  forall s, exists evs,
    trace (snd (m s)) = trace s ++ evs /\ length (fetches evs) <= n.

(** An event of the delivery of [resource] to [url]: a PUT of that very
    resource to that URL, or a wait. *)
Definition delivery_event (url : string) (resource : value) (ev : event) : Prop :=
  match ev with
  | EvPut u b _ => u = url /\ b = resource
  | EvWait _ => True
  | _ => False
  end.

(** Two states that differ at most in the waits of their traces. *)
Definition same_but_waits (s1 s2 : state E) : Prop :=
  net s1 = net s2 /\ disk s1 = disk s2 /\ seen s1 = seen s2 /\
  results s1 = results s2 /\ no_waits (trace s1) = no_waits (trace s2).

(** Two computations that agree on states that agree. *)
Definition agree {A} (m1 m2 : M E A) : Prop :=
  forall s1 s2,
    same_but_waits s1 s2 ->
    fst (m1 s1) = fst (m2 s2) /\ same_but_waits (snd (m1 s1)) (snd (m2 s2)).

End MoreVocabulary.

(* ================================================================== *)
(** ** A worked scenario *)

(** A proxy that knows four Encounters and a node that answers its PUTs
    from a script; the theorems are applied to it at the end. *)
Module Scenario.

Definition resource (ref : nat) (type id : string) : value :=
  VObj ref [("resourceType", VStr type); ("id", VStr id)].

Definition entry_of (ref : nat) (r : value) : value := VObj ref [("resource", r)].

Definition bundle_of (ref : nat) (entries : list value) : value :=
  VObj ref [("resourceType", VStr "Bundle"); ("entry", VArr (S ref) entries)].

Definition empty_bundle : value := VObj 90 [("resourceType", VStr "Bundle")].

(** [enc-1] has a Patient, two Observations and a failing Condition
    query; [enc-3] has no subject and three Observations; [enc-2] is
    unknown to the proxy; the Patient of [enc-5] is unknown. *)
Definition enc1 : value :=
  VObj 1 [("resourceType", VStr "Encounter"); ("id", VStr "enc-1");
          ("subject", VObj 2 [("reference", VStr "Patient/pat-1")])].

Definition enc3 : value := resource 30 "Encounter" "enc-3".

Definition enc5 : value :=
  VObj 50 [("resourceType", VStr "Encounter"); ("id", VStr "enc-5");
           ("subject", VObj 51 [("reference", VStr "Patient/pat-5")])].

Definition pat1 : value := resource 3 "Patient" "pat-1".

Definition obs (ref : nat) (id : string) : value :=
  entry_of ref (resource (S ref) "Observation" id).

Definition get (url : string) (w : list (string + Z))
  : list (string + Z) * (string + value) :=
  if String.eqb url "proxy/fhir/Encounter/enc-1" then (w, inr enc1)
  else if String.eqb url "proxy/fhir/Patient/pat-1" then (w, inr pat1)
  else if String.eqb url "proxy/fhir/Observation?encounter=enc-1"
       then (w, inr (bundle_of 4 [obs 6 "o1"; obs 8 "o2"]))
  else if String.eqb url "proxy/fhir/Condition?encounter=enc-1"
       then (w, inl "Request failed with status code 500")
  else if String.eqb url "proxy/fhir/Encounter/enc-2"
       then (w, inl "Request failed with status code 404")
  else if String.eqb url "proxy/fhir/Encounter/enc-3" then (w, inr enc3)
  else if String.eqb url "proxy/fhir/Observation?encounter=enc-3"
       then (w, inr (bundle_of 34 [obs 36 "o3"; obs 38 "o4"; obs 40 "o5"]))
  else if String.eqb url "proxy/fhir/Encounter/enc-5" then (w, inr enc5)
  else if String.eqb url "proxy/fhir/Patient/pat-5"
       then (w, inl "Request failed with status code 404")
  else (w, inr empty_bundle).

(** The node answers the next PUT with the head of the script, and with
    200 once the script is used up. *)
Definition put (url : string) (body : value) (w : list (string + Z))
  : list (string + Z) * (string + Z) :=
  match w with
  | [] => ([], inr 200%Z)
  | answer :: w' => (w', answer)
  end.

(** The disk is either writable or not, and holds no file. *)
Definition env : Env :=
  mkEnv get put
        (fun _ (_ : bool) => false)
        (fun _ (_ : bool) => inl (ThrowErr (mkError "Error" "ENOENT")))
        (fun _ _ (writable : bool) =>
           (writable,
            if writable then None else Some (mkError "Error" "EACCES")))
        (fun _ => inl (ThrowErr (mkError "SyntaxError" "Unexpected end of JSON input")))
        (fun _ => "[...]")
        "proxy" "node".

Definition start (script : list (string + Z)) : state env :=
  mkState (script : World env) (true : Disk env) [] [] [].

Definition post (uuid : string) : value := VObj 0 [("uuid", VStr uuid)].

Definition busy : string + Z := inl "Request failed with status code 503".
Definition down : string + Z := inl "connect ECONNREFUSED".

Definition three_observations : string := "/Observation?encounter=enc-3".

(** The node accepts the first Observation and rejects the second three
    times. *)
Definition second_fails : state env := start [inr 200%Z; busy; busy; down].

(** The same peers with a disk that keeps what is written, and a codec
    for lists of identifiers that hold no comma: the identifiers joined
    by commas. *)
Definition durable : Env :=
  mkEnv get put
        (fun _ (d : option string) => match d with Some _ => true | None => false end)
        (fun _ (d : option string) =>
           match d with
           | Some content => inr content
           | None => inl (ThrowErr (mkError "Error" "ENOENT"))
           end)
        (fun _ content (_ : option string) => (Some content, None))
        (fun data => inr (VArr 0 (map VStr (split "," data))))
        (fun v => match ToString v with Some str => str | None => "" end)
        "proxy" "node".

(** A process of [durable] at start-up, before the load. *)
Definition boot (d : option string) : state durable :=
  mkState ([] : World durable) (d : Disk durable) [] [] [].

(** A process of [durable] that has seen [enc-1] and has no file yet. *)
Definition running : state durable :=
  mkState ([] : World durable) (None : Disk durable) [VStr "enc-1"] [] [].

End Scenario.

Set Implicit Arguments.


(* ================================================================== *)
(** ** The retry loop *)

Section RetryFacts.

Context {E : Env}.

Lemma waits_app (a b : list event) : waits (a ++ b) = waits a ++ waits b.
Proof.
  induction a as [|[] a IH]; simpl; rewrite ?IH; reflexivity.
Qed.

Lemma put_attempts_app (a b : list event) :
  put_attempts (a ++ b) = put_attempts a + put_attempts b.
Proof.
  induction a as [|[] a IH]; simpl; rewrite ?IH; reflexivity.
Qed.

Lemma delivered_app (a b : list event) :
  delivered (a ++ b) = delivered a + delivered b.
Proof.
  induction a as [|[? ?|? ? []|?|? ?] a IH]; simpl; rewrite ?IH; reflexivity.
Qed.

Lemma fetches_app (a b : list event) : fetches (a ++ b) = fetches a ++ fetches b.
Proof.
  induction a as [|[] a IH]; simpl; rewrite ?IH; reflexivity.
Qed.

Lemma waits_backoff url body attempt msgs :
  waits (backoff url body attempt msgs)
  = map (fun k => 500 * k) (seq (S attempt) (length msgs)).
Proof.
  revert attempt; induction msgs as [|m ms IH]; intros attempt; simpl.
  - reflexivity.
  - now rewrite IH.
Qed.

Lemma put_attempts_backoff url body attempt msgs :
  put_attempts (backoff url body attempt msgs) = length msgs.
Proof.
  revert attempt; induction msgs as [|m ms IH]; intros attempt; simpl.
  - reflexivity.
  - now rewrite IH.
Qed.



Lemma last_default {A} (l : list A) (c a b : A) :
  last (c :: l) a = last (c :: l) b.
Proof.
  revert c; induction l as [|h l IH]; intros c; [reflexivity|].
  change (last (h :: l) a = last (h :: l) b). apply IH.
Qed.

Lemma last_map_cons {A B} (f : A -> B) (l : list A) (c : A) (d : B) :
  last (map f (c :: l)) d = f (last (c :: l) c).
Proof.
  revert c; induction l as [|h l IH]; intros c; [reflexivity|].
  change (last (map f (h :: l)) d = f (last (h :: l) c)).
  rewrite IH. f_equal. apply last_default.
Qed.

Lemma last_error_cons m ms d :
  last_error (m :: ms) d = last_error ms (AxiosError m).
Proof.
  unfold last_error. destruct ms as [|m' ms]; [reflexivity|].
  change (last (map AxiosError (m' :: ms)) d
          = last (map AxiosError (m' :: ms)) (AxiosError m)).
  simpl map. apply last_default.
Qed.

Lemma last_error_nonempty m ms d :
  last_error (m :: ms) d = AxiosError (last (m :: ms) m).
Proof.
  unfold last_error. apply last_map_cons.
Qed.

End RetryFacts.

Section RetryLoop.

Context {E : Env}.

Lemma with_net_nil (s : state E) : with_net (net s) [] s = s.
Proof.
  unfold with_net. rewrite app_nil_r. reflexivity.
Qed.

Lemma with_net_with_net (w1 w2 : World E) (e1 e2 : list event) (s : state E) :
  with_net w2 e2 (with_net w1 e1 s) = with_net w2 (e1 ++ e2) s.
Proof.
  unfold with_net; simpl. rewrite app_assoc. reflexivity.
Qed.

(** One failing attempt of the delivery closure. *)
Lemma put_rejected url body (s : state E) m :
  snd (axios_put E url body (net s)) = inl m ->
  axios_put_status url body s
  = (Throw (AxiosError m),
     with_net (fst (axios_put E url body (net s))) [EvPut url body (inl m)] s).
Proof.
  unfold axios_put_status, with_net.
  destruct (axios_put E url body (net s)) as [w ans]; simpl.
  intros ->. reflexivity.
Qed.

Lemma put_resolved url body (s : state E) status :
  snd (axios_put E url body (net s)) = inr status ->
  axios_put_status url body s
  = (Return status,
     with_net (fst (axios_put E url body (net s))) [EvPut url body (inr status)] s).
Proof.
  unfold axios_put_status, with_net.
  destruct (axios_put E url body (net s)) as [w ans]; simpl.
  intros ->. reflexivity.
Qed.

(** After the failed attempts [msgs] the loop of the main program is
    where it started, [length msgs] attempts later. *)
Lemma retry_loop_failing url body msgs :
  forall remaining attempt lastErr (s : state E) w',
    failing_puts url body msgs (net s) w' ->
    retry_loop (axios_put_status url body) (length msgs + remaining) attempt lastErr s
    = retry_loop (axios_put_status url body) remaining (attempt + length msgs)
        (last_error msgs lastErr)
        (with_net w' (backoff url body attempt msgs) s).
Proof.
  induction msgs as [|m ms IH]; intros remaining attempt lastErr s w' H.
  - simpl in H; subst w'. simpl. rewrite Nat.add_0_r, with_net_nil. reflexivity.
  - destruct H as [Hm Hms].
    change (length (m :: ms) + remaining) with (S (length ms + remaining)).
    cbn [retry_loop]. unfold try_catch at 1.
    rewrite (put_rejected _ _ _ Hm).
    unfold bind at 1. cbn [message AxiosError ret].
    unfold bind at 1. unfold setTimeout, emit, modify.
    rewrite (IH remaining (S attempt) (AxiosError m) _ w').
    + rewrite last_error_cons. cbn [length]. rewrite Nat.add_succ_r.
      unfold with_net; cbn [net disk seen results trace backoff].
      rewrite <- !app_assoc. reflexivity.
    + exact Hms.
Qed.

(** The same for the instrumented copy. *)
Lemma debug_retry_loop_failing url body maxRetries msgs :
  forall remaining attempt lastErr (s : state E) w',
    failing_puts url body msgs (net s) w' ->
    Debug.retry_loop (axios_put_status url body) maxRetries
      (length msgs + remaining) attempt lastErr s
    = Debug.retry_loop (axios_put_status url body) maxRetries remaining
        (attempt + length msgs) (last_error msgs lastErr)
        (with_net w' (backoff_guarded url body maxRetries attempt msgs) s).
Proof.
  induction msgs as [|m ms IH]; intros remaining attempt lastErr s w' H.
  - simpl in H; subst w'. simpl. rewrite Nat.add_0_r, with_net_nil. reflexivity.
  - destruct H as [Hm Hms].
    change (length (m :: ms) + remaining) with (S (length ms + remaining)).
    cbn [Debug.retry_loop]. unfold try_catch at 1.
    rewrite (put_rejected _ _ _ Hm).
    unfold bind at 1. cbn [message AxiosError ret].
    unfold bind at 1.
    rewrite last_error_cons. cbn [length]. rewrite Nat.add_succ_r.
    cbn [backoff_guarded].
    destruct (Nat.ltb (S attempt) maxRetries).
    + unfold setTimeout, emit, modify.
      rewrite (IH remaining (S attempt) (AxiosError m) _ w').
      * unfold with_net; cbn [net disk seen results trace].
        rewrite <- !app_assoc. reflexivity.
      * exact Hms.
    + cbn [ret].
      rewrite (IH remaining (S attempt) (AxiosError m) _ w').
      * unfold with_net; cbn [net disk seen results trace].
        rewrite <- !app_assoc. reflexivity.
      * exact Hms.
Qed.

End RetryLoop.

Section RetryTheorems.

Context {E : Env}.

Lemma retryRequest_success url body N msgs (s : state E) w' status :
  failing_puts url body msgs (net s) w' ->
  length msgs < N ->
  snd (axios_put E url body w') = inr status ->
  retryRequest (axios_put_status url body) N s
  = (Return status,
     with_net (fst (axios_put E url body w'))
              (backoff url body 0 msgs ++ [EvPut url body (inr status)]) s).
Proof.
  intros H Hlt Hok. unfold retryRequest.
  replace N with (length msgs + S (N - length msgs - 1)) by lia.
  rewrite (retry_loop_failing _ _ _ _ _ _ _ _ H).
  cbn [retry_loop]. unfold try_catch.
  assert (Hnet : net (with_net w' (backoff url body 0 msgs) s) = w') by reflexivity.
  rewrite put_resolved with (status := status) by (rewrite Hnet; exact Hok).
  rewrite Hnet, with_net_with_net. reflexivity.
Qed.

Lemma retryRequest_exhausted url body N msgs (s : state E) w' :
  failing_puts url body msgs (net s) w' ->
  length msgs = N ->
  retryRequest (axios_put_status url body) N s
  = (Throw (last_error msgs ThrowNull), with_net w' (backoff url body 0 msgs) s).
Proof.
  intros H Hlen. unfold retryRequest. subst N.
  replace (length msgs) with (length msgs + 0) at 1 by lia.
  rewrite (retry_loop_failing _ _ _ _ _ _ _ _ H). reflexivity.
Qed.

(** C1, as the main program behaves.  An operation that fails
    [length msgs < N] times and then succeeds makes [retryRequest]
    return its result after [length msgs + 1] attempts, having waited
    500, 1000, ..., 500 * [length msgs] ms.  An operation that fails [N]
    times makes it raise after exactly [N] attempts, but after [N]
    waits, 500, 1000, ..., 500 * [N] ms: the last wait follows the final
    attempt. *)
Theorem retryRequest_attempts_and_waits url body N msgs (s : state E) w' :
  failing_puts url body msgs (net s) w' ->
  (length msgs < N ->
   forall status, snd (axios_put E url body w') = inr status ->
     let evs := backoff url body 0 msgs ++ [EvPut url body (inr status)] in
     retryRequest (axios_put_status url body) N s
     = (Return status, with_net (fst (axios_put E url body w')) evs s)
     /\ put_attempts evs = length msgs + 1
     /\ waits evs = map (fun k => 500 * k) (seq 1 (length msgs)))
  /\
  (length msgs = N ->
     let evs := backoff url body 0 msgs in
     retryRequest (axios_put_status url body) N s
     = (Throw (last_error msgs ThrowNull), with_net w' evs s)
     /\ put_attempts evs = N
     /\ waits evs = map (fun k => 500 * k) (seq 1 N)).
Proof.
  intros H. split.
  - intros Hlt status Hok evs. split; [|split].
    + apply retryRequest_success; assumption.
    + unfold evs. rewrite put_attempts_app, put_attempts_backoff. reflexivity.
    + unfold evs. rewrite waits_app, waits_backoff. simpl. apply app_nil_r.
  - intros Hlen evs. split; [|split].
    + apply retryRequest_exhausted; assumption.
    + unfold evs. rewrite put_attempts_backoff. exact Hlen.
    + unfold evs. rewrite waits_backoff, Hlen. reflexivity.
Qed.

Lemma waits_backoff_guarded url body N msgs :
  forall attempt,
    waits (backoff_guarded url body N attempt msgs)
    = map (fun k => 500 * k)
          (seq (S attempt) (Nat.min (length msgs) (N - S attempt))).
Proof.
  induction msgs as [|m ms IH]; intros attempt.
  - reflexivity.
  - cbn [backoff_guarded waits length]. rewrite waits_app, IH.
    destruct (Nat.ltb (S attempt) N) eqn:Hlt.
    + apply Nat.ltb_lt in Hlt.
      replace (N - S attempt) with (S (N - S (S attempt))) by lia.
      reflexivity.
    + apply Nat.ltb_ge in Hlt.
      replace (N - S attempt) with 0 by lia.
      replace (N - S (S attempt)) with 0 by lia.
      rewrite !Nat.min_0_r. reflexivity.
Qed.

Lemma put_attempts_backoff_guarded url body N msgs :
  forall attempt, put_attempts (backoff_guarded url body N attempt msgs) = length msgs.
Proof.
  induction msgs as [|m ms IH]; intros attempt; [reflexivity|].
  cbn [backoff_guarded put_attempts length]. rewrite put_attempts_app, IH.
  destruct (Nat.ltb (S attempt) N); reflexivity.
Qed.

(** X13.  The instrumented copy of [retryRequest] meets the retry bound
    as the specification words it: [length msgs + 1] attempts on success, [N]
    attempts and the waits 500, ..., 500 * ([N] - 1) on exhaustion, none
    after the final attempt. *)
Lemma debug_retryRequest_retry_bound url body N msgs (s : state E) w' :
  failing_puts url body msgs (net s) w' ->
  (length msgs < N ->
   forall status, snd (axios_put E url body w') = inr status ->
     let evs := backoff_guarded url body N 0 msgs ++ [EvPut url body (inr status)] in
     Debug.retryRequest (axios_put_status url body) N s
     = (Return status, with_net (fst (axios_put E url body w')) evs s)
     /\ put_attempts evs = length msgs + 1
     /\ waits evs = map (fun k => 500 * k) (seq 1 (length msgs)))
  /\
  (length msgs = N -> 0 < N ->
     let evs := backoff_guarded url body N 0 msgs in
     Debug.retryRequest (axios_put_status url body) N s
     = (Throw (last_error msgs ThrowNull), with_net w' evs s)
     /\ put_attempts evs = N
     /\ waits evs = map (fun k => 500 * k) (seq 1 (N - 1))).
Proof.
  intros H. split.
  - intros Hlt status Hok evs. split; [|split].
    + unfold Debug.retryRequest.
      replace N with (length msgs + S (N - length msgs - 1)) at 2 by lia.
      rewrite (debug_retry_loop_failing _ _ _ _ _ _ _ _ _ H).
      cbn [Debug.retry_loop]. unfold try_catch.
      assert (Hnet : net (with_net w' (backoff_guarded url body N 0 msgs) s) = w')
        by reflexivity.
      rewrite put_resolved with (status := status) by (rewrite Hnet; exact Hok).
      rewrite Hnet, with_net_with_net. reflexivity.
    + unfold evs. rewrite put_attempts_app, put_attempts_backoff_guarded. reflexivity.
    + unfold evs. rewrite waits_app, waits_backoff_guarded. simpl.
      rewrite app_nil_r. f_equal. f_equal. lia.
  - intros Hlen Hpos evs. split; [|split].
    + unfold Debug.retryRequest.
      replace N with (length msgs + 0) at 2 by lia.
      rewrite (debug_retry_loop_failing _ _ _ _ _ _ _ _ _ H).
      cbn [Debug.retry_loop]. destruct msgs as [|m ms]; [simpl in Hlen; lia|].
      rewrite last_error_nonempty. reflexivity.
    + unfold evs. rewrite put_attempts_backoff_guarded. exact Hlen.
    + unfold evs. rewrite waits_backoff_guarded. f_equal. f_equal. lia.
Qed.

(** C7.  When all [N] attempts have failed, with the messages [msgs] in
    order, what [retryRequest] raises is the error of the last attempt
    and nothing else: the earlier messages do not occur in it. *)
Theorem retryRequest_raises_last_error url body N m ms (s : state E) w' :
  failing_puts url body (m :: ms) (net s) w' ->
  length (m :: ms) = N ->
  fst (retryRequest (axios_put_status url body) N s)
  = Throw (AxiosError (last (m :: ms) m)).
Proof.
  intros H Hlen.
  rewrite retryRequest_exhausted with (msgs := m :: ms) (w' := w') by assumption.
  cbn [fst].
  rewrite last_error_nonempty. reflexivity.
Qed.

End RetryTheorems.

(* ================================================================== *)
(** ** What every step of the replication leaves alone *)

Section Discipline.

Context {E : Env}.

Local Abbreviation spec := (spec (E := E)) (only parsing).

Lemma spec_silent {A} q (m : M E A) :
  (forall s, snd (m s) = s) ->
  (forall s d, fst (m (set_disk d s)) = fst (m s)) ->
  (forall s, fst (m s) <> Throw ThrowNull) ->
  spec q 0 m.
Proof.
  intros Hs Hd Hn s. rewrite Hs. repeat split; auto.
  - intros d. rewrite (surjective_pairing (m (set_disk d s))), Hs, Hd. reflexivity.
  - exists [], []. rewrite !app_nil_r. repeat split; auto.
    simpl. destruct (fst (m s)); reflexivity.
Qed.

Lemma spec_ret {A} q (a : A) : spec q 0 (ret a).
Proof. apply spec_silent; intros; try reflexivity. discriminate. Qed.

Lemma spec_throw {A} q (e : error) : spec q 0 (throw (A := A) (ThrowErr e)).
Proof. apply spec_silent; intros; try reflexivity. discriminate. Qed.

Lemma spec_get_prop q v p : spec q 0 (get_prop v p).
Proof.
  apply spec_silent; intros; destruct v; try reflexivity; discriminate.
Qed.

Lemma spec_opt_prop q v p : spec q 0 (opt_prop v p).
Proof.
  unfold opt_prop. destruct (nullish v); [apply spec_ret | apply spec_get_prop].
Qed.

Lemma spec_message q t : spec q 0 (message t).
Proof.
  apply spec_silent; intros; destruct t; try reflexivity; discriminate.
Qed.

Lemma spec_subst q v : spec q 0 (subst v).
Proof.
  unfold subst. destruct (ToString v); [apply spec_ret | apply spec_throw].
Qed.

Lemma spec_iterate q v : spec q 0 (iterate v).
Proof.
  apply spec_silent; intros; destruct v; try reflexivity; discriminate.
Qed.

Lemma spec_results_length q : spec q 0 results_length.
Proof. apply spec_silent; intros; try reflexivity. discriminate. Qed.

Lemma spec_setTimeout q ms : spec q 0 (setTimeout ms).
Proof.
  intros s. cbn. repeat split; try discriminate.
  exists [EvWait ms], []. rewrite app_nil_r. repeat split; auto.
Qed.

Lemma spec_axios_get_data url : spec false 0 (axios_get_data url).
Proof.
  intros s. unfold axios_get_data. cbn [set_disk net disk seen results trace].
  destruct (axios_get E url (net s)) as [w [msg|data]]; cbn;
    (repeat split; try discriminate;
     eexists [_], []; rewrite app_nil_r; repeat split; auto; discriminate).
Qed.

Lemma spec_axios_put_status q url body : spec q 1 (axios_put_status url body).
Proof.
  intros s. unfold axios_put_status. cbn [set_disk net disk seen results trace].
  destruct (axios_put E url body (net s)) as [w [msg|status]]; cbn;
    (repeat split; try discriminate;
     eexists [_], []; rewrite app_nil_r; repeat split; auto).
Qed.

Lemma spec_weaken {A} q k (m : M E A) : spec q k m -> spec false k m.
Proof.
  intros H s. destruct (H s) as (H1 & H2 & H3 & H4 & evs & rs & H5 & H6 & H7 & _).
  repeat split; auto. exists evs, rs. repeat split; auto. discriminate.
Qed.

Lemma spec_bind {A B} q k (m : M E A) (f : A -> M E B) :
  spec q 0 m -> (forall a, spec q k (f a)) -> spec q k (bind m f).
Proof.
  intros Hm Hf s. unfold bind.
  destruct (Hm s) as (H1 & H2 & H3 & H4 & evs & rs & H5 & H6 & H7 & H8).
  destruct (m s) as [[a|t] s1] eqn:Hms; cbn [fst snd] in *.
  - destruct (Hf a s1) as (G1 & G2 & G3 & G4 & evs' & rs' & G5 & G6 & G7 & G8).
    repeat split; try congruence.
    + intros d. rewrite H4. cbn. rewrite G4. reflexivity.
    + exists (evs ++ evs'), (rs ++ rs'). rewrite G5, G6, H5, H6, !app_assoc.
      repeat split; auto.
      * rewrite delivered_app, length_app. lia.
      * intros Hq. rewrite fetches_app, H8, G8; auto.
  - repeat split; auto.
    + intros Hc. injection Hc as ->. now apply H3.
    + intros d. rewrite H4. reflexivity.
    + exists evs, rs. repeat split; auto.
Qed.

(** [results.push(await m)] *)
Lemma spec_bind_push {A} q (m : M E Z) (f : unit -> M E A) k :
  spec q 1 m -> spec q k (f tt) ->
  spec q k (x <- m ;; results_push x ;;; f tt).
Proof.
  intros Hm Hf s. unfold bind, results_push, modify.
  destruct (Hm s) as (H1 & H2 & H3 & H4 & evs & rs & H5 & H6 & H7 & H8).
  destruct (m s) as [[a|t] s1] eqn:Hms; cbn [fst snd] in *.
  - match goal with |- context [f tt ?st] => set (s2 := st) end.
    destruct (Hf s2) as (G1 & G2 & G3 & G4 & evs' & rs' & G5 & G6 & G7 & G8).
    assert (K1 : seen s2 = seen s1) by reflexivity.
    assert (K2 : disk s2 = disk s1) by reflexivity.
    assert (K3 : trace s2 = trace s1) by reflexivity.
    assert (K4 : results s2 = results s1 ++ [a]) by reflexivity.
    split; [congruence|]. split; [congruence|]. split; [exact G3|]. split.
    + intros d. rewrite H4. cbn.
      change (mkState (net s1) d (seen s1) (results s1 ++ [a]) (trace s1))
        with (set_disk d s2).
      rewrite G4. reflexivity.
    + exists (evs ++ evs'), (rs ++ [a] ++ rs').
      rewrite G5, G6, K3, K4, H5, H6, <- !app_assoc.
      repeat split; auto.
      * rewrite delivered_app, !length_app. cbn [length]. lia.
      * intros Hq. rewrite fetches_app, H8, G8; auto.
  - repeat split; auto.
    + intros Hc. injection Hc as ->. now apply H3.
    + intros d. rewrite H4. reflexivity.
    + exists evs, rs. repeat split; auto.
Qed.

Lemma spec_try_catch {A} q k (m : M E A) (h : thrown -> M E A) :
  spec q k m -> (forall e, spec q k (h (ThrowErr e))) -> spec q k (try_catch m h).
Proof.
  intros Hm Hh s. unfold try_catch.
  destruct (Hm s) as (H1 & H2 & H3 & H4 & evs & rs & H5 & H6 & H7 & H8).
  destruct (m s) as [[a|t] s1] eqn:Hms; cbn [fst snd] in *.
  - repeat split; auto.
    + intros d. rewrite H4. reflexivity.
    + exists evs, rs. repeat split; auto.
  - destruct t as [|e]; [congruence|].
    destruct (Hh e s1) as (G1 & G2 & G3 & G4 & evs' & rs' & G5 & G6 & G7 & G8).
    repeat split; try congruence.
    + intros d. rewrite H4. cbn. rewrite G4. reflexivity.
    + exists (evs ++ evs'), (rs ++ rs'). rewrite G5, G6, H5, H6, !app_assoc.
      repeat split; auto.
      * rewrite delivered_app, length_app. lia.
      * intros Hq. rewrite fetches_app, H8, G8; auto.
Qed.

Lemma spec_for_of {X} q (xs : list X) (body : X -> M E unit) :
  (forall x, spec q 0 (body x)) -> spec q 0 (for_of xs body).
Proof.
  intros Hb. induction xs as [|x xs IH]; cbn [for_of].
  - apply spec_ret.
  - apply spec_bind; auto.
Qed.

Lemma spec_retry_loop q url body remaining :
  forall attempt e,
    spec q 1 (retry_loop (axios_put_status url body) remaining attempt (ThrowErr e)).
Proof.
  induction remaining as [|r IH]; intros attempt e; cbn [retry_loop].
  - intros s. cbn. repeat split; try discriminate.
    exists [], []. rewrite !app_nil_r. repeat split; auto.
  - apply spec_try_catch; [apply spec_axios_put_status|].
    intros e'. apply spec_bind; [apply spec_message|]. intros _.
    apply spec_bind; [apply spec_setTimeout|]. intros _. apply IH.
Qed.

Lemma spec_retryRequest q url body n :
  spec q 1 (retryRequest (axios_put_status url body) (S n)).
Proof.
  unfold retryRequest. cbn [retry_loop].
  apply spec_try_catch; [apply spec_axios_put_status|].
  intros e'. apply spec_bind; [apply spec_message|]. intros _.
  apply spec_bind; [apply spec_setTimeout|]. intros _. apply spec_retry_loop.
Qed.

Lemma spec_push_last q (m : M E Z) :
  spec q 1 m -> spec q 0 (x <- m ;; results_push x).
Proof.
  intros Hm s.
  destruct (spec_bind_push (fun _ => ret tt) Hm (spec_ret q tt) s)
    as (H1 & H2 & H3 & H4 & H5).
  assert (Heq : forall s0, (x <- m ;; results_push x) s0
                      = (x <- m ;; results_push x ;;; ret tt) s0).
  { intros s0. unfold bind, results_push, modify, ret.
    destruct (m s0) as [[a|t] s1]; reflexivity. }
  rewrite !Heq. repeat split; auto.
Qed.

Lemma spec_getFromProxy path : spec false 0 (getFromProxy path).
Proof. apply spec_axios_get_data. Qed.

Lemma spec_putToNode q resource : spec q 1 (putToNode resource).
Proof.
  unfold putToNode.
  apply spec_bind; [apply spec_get_prop|]; intros resourceType.
  apply spec_bind; [apply spec_subst|]; intros sType.
  apply spec_bind; [apply spec_get_prop|]; intros id.
  apply spec_bind; [apply spec_subst|]; intros sId.
  apply spec_retryRequest.
Qed.

Lemma spec_patientId_of q encounter : spec q 0 (patientId_of encounter).
Proof.
  unfold patientId_of.
  apply spec_bind; [apply spec_get_prop|]; intros subject.
  destruct (nullish subject); [apply spec_ret|].
  apply spec_bind; [apply spec_get_prop|]; intros reference.
  destruct (nullish reference); [apply spec_ret|].
  destruct reference; try apply spec_throw. apply spec_ret.
Qed.

Lemma spec_resourceQueries q uuid : spec q 0 (resourceQueries uuid).
Proof.
  unfold resourceQueries.
  apply spec_bind; [apply spec_subst|]; intros u. apply spec_ret.
Qed.

Lemma spec_deliver_entry entry : spec true 0 (deliver_entry entry).
Proof.
  unfold deliver_entry.
  apply spec_bind; [apply spec_get_prop|]; intros resource.
  apply spec_bind; [apply spec_opt_prop|]; intros resourceType.
  apply spec_bind.
  { destruct (truthy resourceType); [apply spec_opt_prop | apply spec_ret]. }
  intros id. destruct (truthy id); [|apply spec_ret].
  apply spec_push_last, spec_putToNode.
Qed.

Lemma spec_deliver_entries entries : spec true 0 (for_of entries deliver_entry).
Proof. apply spec_for_of, spec_deliver_entry. Qed.

(** What follows the fetch in [fetch_and_deliver]. *)
Lemma spec_deliver_bundle bundle :
  spec true 0
    (entry <- get_prop bundle "entry" ;;
     if truthy entry then
       entries <- iterate entry ;; for_of entries deliver_entry
     else ret tt).
Proof.
  apply spec_bind; [apply spec_get_prop|]; intros entry.
  destruct (truthy entry); [|apply spec_ret].
  apply spec_bind; [apply spec_iterate|]; intros entries.
  apply spec_deliver_entries.
Qed.

Lemma spec_fetch_and_deliver q : spec false 0 (fetch_and_deliver q).
Proof.
  unfold fetch_and_deliver.
  apply spec_bind; [apply spec_getFromProxy|]; intros bundle.
  apply (spec_weaken (spec_deliver_bundle bundle)).
Qed.

Lemma spec_process_type query : spec false 0 (process_type query).
Proof.
  destruct query as [type q]. unfold process_type.
  apply spec_try_catch; [apply spec_fetch_and_deliver|].
  intros e. apply spec_bind; [apply spec_message|]; intros _. apply spec_ret.
Qed.

Lemma spec_replicate_encounter uuid : spec false 0 (replicate_encounter uuid).
Proof.
  unfold replicate_encounter.
  apply spec_bind; [apply spec_subst|]; intros u.
  apply spec_bind; [apply spec_getFromProxy|]; intros encounter.
  apply (spec_bind_push (fun _ => ret encounter));
    [apply spec_putToNode | apply spec_ret].
Qed.

Lemma spec_replicate_patient encounter : spec false 0 (replicate_patient encounter).
Proof.
  unfold replicate_patient.
  apply spec_bind; [apply spec_patientId_of|]; intros patientId.
  destruct (truthy patientId); [|apply spec_ret].
  apply spec_bind; [apply spec_subst|]; intros p.
  apply spec_bind; [apply spec_getFromProxy|]; intros patient.
  apply spec_push_last, spec_putToNode.
Qed.

Lemma spec_replicate_related uuid : spec false 0 (replicate_related uuid).
Proof.
  unfold replicate_related.
  apply spec_bind; [apply spec_resourceQueries|]; intros queries.
  apply spec_bind; [apply spec_for_of, spec_process_type|]; intros _.
  apply spec_bind; [apply spec_results_length|]; intros sent. apply spec_ret.
Qed.

Lemma spec_replicate uuid : spec false 0 (replicate uuid).
Proof.
  unfold replicate.
  apply spec_bind; [apply spec_replicate_encounter|]; intros encounter.
  apply spec_bind; [apply spec_replicate_patient|]; intros _.
  apply spec_replicate_related.
Qed.

End Discipline.

(* ================================================================== *)
(** ** Fetching and delivering one resource *)

Unset Implicit Arguments.

Section FetchAndDeliver.

Context {E : Env}.

Lemma retry_loop_run url body remaining :
  forall attempt lastErr (s : state E),
    retry_run url body remaining attempt lastErr s
      (retry_loop (axios_put_status url body) remaining attempt lastErr s).
Proof.
  induction remaining as [|r IH]; intros attempt lastErr s.
  - cbn [retry_loop].
    replace (throw lastErr s)
      with (Throw (A := Z) (last_error [] lastErr),
            with_net (net s) (backoff url body attempt []) s)
      by (cbn [backoff]; rewrite with_net_nil; reflexivity).
    apply run_exhausted; reflexivity.
  - destruct (snd (axios_put E url body (net s))) as [m|status] eqn:Hput.
    + pose (s1 := with_net (fst (axios_put E url body (net s)))
                           [EvPut url body (inl m); EvWait (500 * S attempt)] s).
      assert (Hstep : retry_loop (axios_put_status url body) (S r) attempt lastErr s
                      = retry_loop (axios_put_status url body) r (S attempt)
                          (AxiosError m) s1).
      { cbn [retry_loop]. unfold try_catch at 1. rewrite (put_rejected _ _ _ Hput).
        unfold bind at 1. cbn [message AxiosError ret].
        unfold bind at 1. unfold setTimeout, emit, modify, s1, with_net.
        cbn [net disk seen results trace]. rewrite <- app_assoc. reflexivity. }
      rewrite Hstep.
      destruct (IH (S attempt) (AxiosError m) s1)
        as [msgs w' status Hf Hlen Hok | msgs w' Hf Hlen].
      * unfold s1. rewrite with_net_with_net.
        change ([EvPut url body (inl m); EvWait (500 * S attempt)]
                  ++ backoff url body (S attempt) msgs ++ [EvPut url body (inr status)])
          with (backoff url body attempt (m :: msgs) ++ [EvPut url body (inr status)]).
        apply run_delivered; [split; assumption | simpl; lia | assumption].
      * unfold s1. rewrite with_net_with_net.
        change ([EvPut url body (inl m); EvWait (500 * S attempt)]
                  ++ backoff url body (S attempt) msgs)
          with (backoff url body attempt (m :: msgs)).
        rewrite <- last_error_cons with (d := lastErr).
        apply run_exhausted; [split; assumption | simpl; lia].
    + cbn [retry_loop]. unfold try_catch. rewrite (put_resolved _ _ _ Hput).
      change [EvPut url body (inr status)]
        with (backoff url body attempt [] ++ [EvPut url body (inr status)]).
      apply run_delivered with (msgs := []) (w' := net s);
        [reflexivity | simpl; lia | assumption].
Qed.

Lemma get_prop_run v p (s : state E) :
  nullish v = false -> get_prop v p s = (Return (prop v p), s).
Proof.
  destruct v; cbn; intros H; try discriminate; reflexivity.
Qed.

Lemma get_prop_nullish v p (s : state E) :
  nullish v = true -> exists e, get_prop v p s = (Throw (ThrowErr e), s).
Proof.
  destruct v; cbn; intros H; try discriminate; eexists; reflexivity.
Qed.

Lemma subst_run v str (s : state E) :
  ToString v = Some str -> subst v s = (Return str, s).
Proof.
  unfold subst. intros ->. reflexivity.
Qed.

(** [putToNode] on a resource whose type and id can be printed. *)
Lemma putToNode_retry resource sType sId (s : state E) :
  nullish resource = false ->
  ToString (prop resource "resourceType") = Some sType ->
  ToString (prop resource "id") = Some sId ->
  putToNode resource s
  = retryRequest (axios_put_status (node_url E sType sId) resource) (MAX_RETRIES) s.
Proof.
  intros Hn Ht Hi. unfold putToNode.
  unfold bind at 1. rewrite (get_prop_run _ _ _ Hn).
  unfold bind at 1. rewrite (subst_run _ _ _ Ht).
  unfold bind at 1. rewrite (get_prop_run _ _ _ Hn).
  unfold bind at 1. rewrite (subst_run _ _ _ Hi). reflexivity.
Qed.

(** [putToNode] either fails to build its URL, without any effect, or
    runs the retry loop with [MAX_RETRIES] attempts on that URL. *)
Lemma putToNode_run resource (s : state E) :
  (exists e, putToNode resource s = (Throw (ThrowErr e), s)) \/
  (exists sType sId,
      retry_run (node_url E sType sId) resource MAX_RETRIES 0 ThrowNull s
                (putToNode resource s)).
Proof.
  destruct (nullish resource) eqn:Hn.
  - left. destruct (get_prop_nullish resource "resourceType" s Hn) as [e He].
    exists e. unfold putToNode. unfold bind at 1. rewrite He. reflexivity.
  - destruct (ToString (prop resource "resourceType")) as [sType|] eqn:Ht.
    + destruct (ToString (prop resource "id")) as [sId|] eqn:Hi.
      * right. exists sType, sId. rewrite (putToNode_retry _ _ _ _ Hn Ht Hi).
        apply retry_loop_run.
      * left. eexists. unfold putToNode.
        unfold bind at 1. rewrite (get_prop_run _ _ _ Hn).
        unfold bind at 1. rewrite (subst_run _ _ _ Ht).
        unfold bind at 1. rewrite (get_prop_run _ _ _ Hn).
        unfold bind at 1. unfold subst. rewrite Hi. reflexivity.
    + left. eexists. unfold putToNode.
      unfold bind at 1. rewrite (get_prop_run _ _ _ Hn).
      unfold bind at 1. unfold subst. rewrite Ht. reflexivity.
Qed.

Lemma putToNode_results resource (s : state E) :
  results (snd (putToNode resource s)) = results s.
Proof.
  destruct (putToNode_run resource s) as [[e ->] | (sT & sI & H)]; [reflexivity|].
  inversion H; reflexivity.
Qed.

Lemma putToNode_error resource (s s' : state E) t :
  putToNode resource s = (Throw t, s') ->
  exists e, t = ThrowErr e /\ results s' = results s /\
            exists evs, trace s' = trace s ++ evs /\ delivered evs = 0
                        /\ fetches evs = [].
Proof.
  intros H.
  pose proof (putToNode_results resource s) as Hr. rewrite H in Hr. cbn in Hr.
  destruct (spec_putToNode true resource s)
    as (_ & _ & H3 & _ & evs & rs & H5 & H6 & H7 & H8).
  rewrite H in *. cbn [fst snd] in *.
  destruct t as [|e]; [congruence|].
  exists e. repeat split; auto. exists evs. repeat split; auto.
  rewrite Hr in H6. 
  assert (rs = []) by (apply (app_inv_head (results s)); rewrite app_nil_r; auto).
  subst rs. simpl in H7. lia.
Qed.

(** A fetch is one GET: its failure is raised at once. *)
Lemma getFromProxy_run path (s : state E) :
  getFromProxy path s
  = (match snd (axios_get E (proxy_url E path) (net s)) with
     | inl msg => Throw (AxiosError msg)
     | inr data => Return data
     end,
     with_net (fst (axios_get E (proxy_url E path) (net s)))
              [EvGet (proxy_url E path) (snd (axios_get E (proxy_url E path) (net s)))] s).
Proof.
  unfold getFromProxy, axios_get_data, with_net.
  destruct (axios_get E (proxy_url E path) (net s)) as [w [msg|data]]; reflexivity.
Qed.

End FetchAndDeliver.

(* ================================================================== *)
(** ** The related resources *)

Section RelatedResources.

Context {E : Env}.

Lemma fetch_and_deliver_error q t (s s' : state E) :
  fetch_and_deliver q s = (Throw t, s') -> exists e, t = ThrowErr e.
Proof.
  intros H. destruct (spec_fetch_and_deliver q s) as (_ & _ & H3 & _).
  rewrite H in H3. cbn in H3. destruct t as [|e]; [congruence | eauto].
Qed.

(** The body of the outer loop never raises. *)
Lemma process_type_returns query (s : state E) :
  fst (process_type query s) = Return tt.
Proof.
  destruct query as [type q]. unfold process_type, try_catch.
  destruct (fetch_and_deliver q s) as [[[]|t] s1] eqn:H; [reflexivity|].
  destruct (fetch_and_deliver_error _ _ _ _ H) as [e ->]. reflexivity.
Qed.

Lemma process_type_run query (s : state E) :
  process_type query s = (Return tt, snd (fetch_and_deliver (snd query) s)).
Proof.
  destruct query as [type q]. unfold process_type, try_catch. cbn [snd].
  destruct (fetch_and_deliver q s) as [[[]|t] s1] eqn:H; [reflexivity|].
  destruct (fetch_and_deliver_error _ _ _ _ H) as [e ->]. reflexivity.
Qed.

Lemma for_of_cons_run {X} (x : X) xs (body : X -> M E unit) (s : state E) :
  fst (body x s) = Return tt ->
  for_of (x :: xs) body s = for_of xs body (snd (body x s)).
Proof.
  intros H. cbn [for_of]. unfold bind.
  destruct (body x s) as [[[]|t] s1]; cbn in *; [reflexivity | discriminate].
Qed.

Lemma for_of_process_type_returns queries :
  forall s : state E, fst (for_of queries process_type s) = Return tt.
Proof.
  induction queries as [|query rest IH]; intros s; [reflexivity|].
  rewrite for_of_cons_run by apply process_type_returns. apply IH.
Qed.

Lemma spec_related_loop queries : spec (E := E) false 0 (for_of queries process_type).
Proof. apply spec_for_of, spec_process_type. Qed.

(** One related type costs one GET, whatever happens to its records. *)
Lemma process_type_fetches query (s : state E) :
  exists evs,
    trace (snd (process_type query s))
    = trace s ++ EvGet (proxy_url E (snd query))
                       (snd (axios_get E (proxy_url E (snd query)) (net s))) :: evs
    /\ fetches evs = [].
Proof.
  rewrite process_type_run. cbn [snd]. unfold fetch_and_deliver.
  unfold bind at 1. rewrite getFromProxy_run.
  destruct (snd (axios_get E (proxy_url E (snd query)) (net s))) as [msg|bundle].
  - exists []. split; reflexivity.
  - match goal with |- context [ ?m (with_net ?w ?evs s) ] =>
      destruct (spec_deliver_bundle bundle (with_net w evs s))
        as (_ & _ & _ & _ & evs' & rs & H5 & _ & _ & H8)
    end.
    exists evs'. split; [|auto].
    etransitivity; [exact H5|]. unfold with_net; cbn [trace].
    rewrite <- app_assoc. reflexivity.
Qed.

(** Every related type is asked for, once and in order. *)
Lemma for_of_process_type_fetches queries :
  forall s : state E, exists evs,
    trace (snd (for_of queries process_type s)) = trace s ++ evs
    /\ fetches evs = map (fun query => proxy_url E (snd query)) queries.
Proof.
  induction queries as [|query rest IH]; intros s.
  - exists []. rewrite app_nil_r. split; reflexivity.
  - rewrite for_of_cons_run by apply process_type_returns.
    destruct (process_type_fetches query s) as (evs1 & H1 & H2).
    destruct (IH (snd (process_type query s))) as (evs2 & G1 & G2).
    exists ((EvGet (proxy_url E (snd query))
                   (snd (axios_get E (proxy_url E (snd query)) (net s))) :: evs1) ++ evs2).
    split.
    + rewrite G1, H1, <- app_assoc. reflexivity.
    + rewrite fetches_app. cbn [fetches map]. rewrite H2, G2. reflexivity.
Qed.

(** A related type whose fetch fails is skipped. *)
Lemma process_type_unavailable type q msg (s : state E) :
  snd (axios_get E (proxy_url E q) (net s)) = inl msg ->
  process_type (type, q) s
  = (Return tt,
     with_net (fst (axios_get E (proxy_url E q) (net s)))
              [EvGet (proxy_url E q) (inl msg)] s).
Proof.
  intros H. rewrite process_type_run. cbn [snd]. unfold fetch_and_deliver.
  unfold bind at 1. rewrite getFromProxy_run, H. reflexivity.
Qed.

(** A loop stops at the first iteration that raises. *)
Lemma for_of_raise {X} (pre : list X) x post (body : X -> M E unit)
      (s s1 s2 : state E) t :
  for_of pre body s = (Return tt, s1) ->
  body x s1 = (Throw t, s2) ->
  for_of (pre ++ x :: post) body s = (Throw t, s2).
Proof.
  revert s. induction pre as [|y pre IH]; intros s Hpre Hx.
  - cbn in Hpre. injection Hpre as <-. cbn [app for_of]. unfold bind. rewrite Hx.
    reflexivity.
  - cbn [app for_of] in *. unfold bind in *.
    destruct (body y s) as [[[]|t'] s'] eqn:Hy; [|discriminate].
    apply IH; assumption.
Qed.

End RelatedResources.

(* ================================================================== *)
(** ** Admission *)

Section Admission.

Context {E : Env}.

Lemma SameValueZero_refl v : SameValueZero v v = true.
Proof.
  destruct v; cbn; auto using Bool.eqb_reflx, Z.eqb_refl, String.eqb_refl, Nat.eqb_refl.
Qed.

Lemma Set_has_app l l' v : Set_has (l ++ l') v = Set_has l v || Set_has l' v.
Proof. apply existsb_app. Qed.



Lemma Set_add_new l v : Set_has l v = false -> Set_add l v = l ++ [v].
Proof. unfold Set_add. intros ->. reflexivity. Qed.


(** The three ways through the admission of a posted object. *)
Lemma handler_missing ref fields (s : state E) :
  truthy (lookup "uuid" fields) = false ->
  handler (VObj ref fields) s = (Return missing_response, s).
Proof.
  intros H. unfold handler, bind. cbn [get_prop ret]. rewrite H. reflexivity.
Qed.

Lemma handler_duplicate ref fields (s : state E) :
  truthy (lookup "uuid" fields) = true ->
  Set_has (seen s) (lookup "uuid" fields) = true ->
  handler (VObj ref fields) s
  = (Return (duplicate_response (lookup "uuid" fields)), s).
Proof.
  intros H Hs. unfold handler, bind. cbn [get_prop ret]. rewrite H. cbn [negb].
  unfold seen_has. rewrite Hs. reflexivity.
Qed.

Lemma handler_admitted ref fields (s : state E) :
  truthy (lookup "uuid" fields) = true ->
  Set_has (seen s) (lookup "uuid" fields) = false ->
  handler (VObj ref fields) s
  = try_catch (replicate (lookup "uuid" fields)) handler_catch
              (recorded (lookup "uuid" fields) s).
Proof.
  intros H Hs. unfold handler. unfold bind at 1. cbn [get_prop ret]. rewrite H.
  cbn [negb]. unfold bind at 1. unfold seen_has. rewrite Hs.
  unfold bind at 1. unfold seen_add, modify.
  unfold bind at 1. unfold saveSeen. cbn [net disk seen results trace].
  destruct (fs_writeFile E SEEN_FILE
              (JSON_stringify E (VArr 0 (Set_add (seen s) (lookup "uuid" fields))))
              (disk s)) as [d err] eqn:Hw.
  unfold bind at 1. unfold results_new, modify. cbn [net disk seen results trace].
  unfold recorded. rewrite Hw. reflexivity.
Qed.

(** The [try] block ends in an answer: [ok] with the length of
    [results], or the message of the error it raised. *)
Lemma replicate_related_answer uuid (s : state E) resp s' :
  replicate_related uuid s = (Return resp, s') ->
  resp = ok_response uuid (length (results s')).
Proof.
  unfold replicate_related, bind, resourceQueries, bind, subst.
  destruct (ToString uuid) as [u|]; cbn [ret throw]; [|discriminate].
  destruct (for_of (resourceQueries_of u) process_type s) as [[[]|t] s1];
    [|discriminate].
  unfold results_length, ret. intros H. injection H as <- <-. reflexivity.
Qed.

Lemma replicate_answer uuid (s : state E) resp s' :
  replicate uuid s = (Return resp, s') ->
  resp = ok_response uuid (length (results s')).
Proof.
  unfold replicate, bind.
  destruct (replicate_encounter uuid s) as [[encounter|t] s1]; [|discriminate].
  destruct (replicate_patient encounter s1) as [[[]|t] s2]; [|discriminate].
  apply replicate_related_answer.
Qed.

(** An admitted event is answered, with [ok] or with an error. *)
Lemma handler_handled ref fields (s : state E) :
  truthy (lookup "uuid" fields) = true ->
  Set_has (seen s) (lookup "uuid" fields) = false ->
  handled (lookup "uuid" fields) s (handler (VObj ref fields) s).
Proof.
  intros H Hs. rewrite handler_admitted by assumption.
  set (uuid := lookup "uuid" fields). unfold try_catch.
  destruct (replicate uuid (recorded uuid s)) as [[resp|t] s'] eqn:Hr.
  - pose proof (replicate_answer _ _ _ _ Hr) as ->.
    apply handled_ok. exact Hr.
  - destruct (spec_replicate uuid (recorded uuid s)) as (_ & _ & H3 & _).
    rewrite Hr in H3. cbn in H3. destruct t as [|e]; [congruence|].
    apply handled_error. exact Hr.
Qed.

(** What an admitted request does to [seen], the trace and [results]. *)
Lemma handler_admitted_frame ref fields (s : state E) :
  truthy (lookup "uuid" fields) = true ->
  Set_has (seen s) (lookup "uuid" fields) = false ->
  seen (snd (handler (VObj ref fields) s)) = seen s ++ [lookup "uuid" fields] /\
  exists evs,
    trace (snd (handler (VObj ref fields) s))
    = trace s ++ EvWriteFile SEEN_FILE
                   (JSON_stringify E (VArr 0 (seen s ++ [lookup "uuid" fields])))
                 :: evs
    /\ length (results (snd (handler (VObj ref fields) s))) = delivered evs.
Proof.
  intros H Hs. set (uuid := lookup "uuid" fields) in *.
  assert (Hsnd : snd (handler (VObj ref fields) s) = snd (replicate uuid (recorded uuid s))).
  { destruct (handler_handled ref fields s H Hs) as [s' Hr | e s' Hr];
      fold uuid in Hr; rewrite Hr; reflexivity. }
  destruct (spec_replicate uuid (recorded uuid s))
    as (H1 & _ & _ & _ & evs & rs & H5 & H6 & H7 & _).
  rewrite Hsnd. split.
  - rewrite H1. cbn [recorded seen]. apply Set_add_new; assumption.
  - exists evs. rewrite H5, H6. cbn [recorded trace results].
    rewrite <- (Set_add_new _ _ Hs), <- app_assoc. split; [reflexivity|].
    cbn [app]. destruct (fst (replicate uuid (recorded uuid s))); lia.
Qed.

(** What one request does to the state, whatever its body. *)
Lemma handler_frame body (s : state E) :
  snd (handler body s) = s \/
  exists ref fields,
    body = VObj ref fields /\
    truthy (lookup "uuid" fields) = true /\
    Set_has (seen s) (lookup "uuid" fields) = false /\
    seen (snd (handler body s)) = seen s ++ [lookup "uuid" fields].
Proof.
  destruct body as [ | | b | n | str | ref items | ref fields];
    try (left; reflexivity).
  destruct (truthy (lookup "uuid" fields)) eqn:H.
  2:{ left. rewrite handler_missing by assumption. reflexivity. }
  destruct (Set_has (seen s) (lookup "uuid" fields)) eqn:Hs.
  { left. rewrite handler_duplicate by assumption. reflexivity. }
  right. exists ref, fields. repeat split; auto.
  apply handler_admitted_frame; assumption.
Qed.

Lemma handler_keeps_seen body (s : state E) v :
  Set_has (seen s) v = true -> Set_has (seen (snd (handler body s))) v = true.
Proof.
  intros Hv. destruct (handler_frame body s) as [-> | (ref & fields & _ & _ & _ & Hseen)].
  - exact Hv.
  - rewrite Hseen, Set_has_app, Hv. reflexivity.
Qed.

Lemma serve_keeps_seen bodies :
  forall (s : state E) v,
    Set_has (seen s) v = true -> Set_has (seen (serve bodies s)) v = true.
Proof.
  induction bodies as [|body rest IH]; intros s v Hv; [exact Hv|].
  cbn [serve fold_left]. apply IH, handler_keeps_seen, Hv.
Qed.

Lemma handler_keeps_members body (s : state E) v :
  In v (seen s) -> In v (seen (snd (handler body s))).
Proof.
  intros Hv. destruct (handler_frame body s) as [-> | (ref & fields & _ & _ & _ & Hseen)].
  - exact Hv.
  - rewrite Hseen. apply in_or_app. now left.
Qed.

Lemma serve_keeps_members bodies :
  forall (s : state E) v, In v (seen s) -> In v (seen (serve bodies s)).
Proof.
  induction bodies as [|body rest IH]; intros s v Hv; [exact Hv|].
  cbn [serve fold_left]. apply IH, handler_keeps_members, Hv.
Qed.

(** Once admitted, always a duplicate. *)
Lemma duplicate_ever_after ref fields (s : state E) between ref' fields' :
  truthy (lookup "uuid" fields) = true ->
  Set_has (seen s) (lookup "uuid" fields) = false ->
  lookup "uuid" fields' = lookup "uuid" fields ->
  let s2 := serve between (snd (handler (VObj ref fields) s)) in
  handler (VObj ref' fields') s2
  = (Return (duplicate_response (lookup "uuid" fields)), s2).
Proof.
  intros H Hs Heq s2.
  assert (Hin : Set_has (seen s2) (lookup "uuid" fields) = true).
  { apply serve_keeps_seen.
    destruct (handler_admitted_frame ref fields s H Hs) as [Hseen _].
    rewrite Hseen, Set_has_app. cbn.
    rewrite SameValueZero_refl. apply orb_true_r. }
  rewrite <- Heq. apply handler_duplicate; rewrite Heq; assumption.
Qed.

End Admission.

(* ================================================================== *)
(** ** The Encounter and its Patient *)

Section RootAndSubject.

Context {E : Env}.

Lemma putToNode_returns_nonnull resource status (s s' : state E) :
  putToNode resource s = (Return status, s') -> nullish resource = false.
Proof.
  intros H. destruct (nullish resource) eqn:Hn; [|reflexivity].
  destruct (get_prop_nullish resource "resourceType" s Hn) as [e He].
  unfold putToNode in H. unfold bind at 1 in H. rewrite He in H. discriminate.
Qed.

Lemma replicate_encounter_fetch_failed uuid u msg (s : state E) :
  ToString uuid = Some u ->
  snd (axios_get E (proxy_url E ("/Encounter/" ++ u)) (net s)) = inl msg ->
  replicate_encounter uuid s
  = (Throw (AxiosError msg), fetched ("/Encounter/" ++ u) s).
Proof.
  intros Hu Hget. unfold replicate_encounter.
  unfold bind at 1. rewrite (subst_run _ _ _ Hu).
  unfold bind at 1. rewrite getFromProxy_run. unfold fetched. rewrite Hget.
  reflexivity.
Qed.

Lemma replicate_encounter_fetched uuid u encounter (s : state E) :
  ToString uuid = Some u ->
  snd (axios_get E (proxy_url E ("/Encounter/" ++ u)) (net s)) = inr encounter ->
  replicate_encounter uuid s
  = match putToNode encounter (fetched ("/Encounter/" ++ u) s) with
    | (Return status, s') => (Return encounter, pushed status s')
    | (Throw t, s') => (Throw t, s')
    end.
Proof.
  intros Hu Hget. unfold replicate_encounter.
  unfold bind at 1. rewrite (subst_run _ _ _ Hu).
  unfold bind at 1. rewrite getFromProxy_run.
  fold (fetched ("/Encounter/" ++ u) s). rewrite Hget.
  unfold bind, results_push, modify, ret, pushed.
  destruct (putToNode encounter (fetched ("/Encounter/" ++ u) s)) as [[status|t] s'];
    reflexivity.
Qed.

(** When step 1 succeeds, the Encounter was fetched and delivered, and
    [results] holds its status and nothing else new. *)
Lemma replicate_encounter_returned uuid encounter (s s1 : state E) :
  replicate_encounter uuid s = (Return encounter, s1) ->
  exists u status s',
    ToString uuid = Some u /\
    snd (axios_get E (proxy_url E ("/Encounter/" ++ u)) (net s)) = inr encounter /\
    putToNode encounter (fetched ("/Encounter/" ++ u) s) = (Return status, s') /\
    s1 = pushed status s' /\
    nullish encounter = false /\
    results s1 = results s ++ [status].
Proof.
  intros H. destruct (ToString uuid) as [u|] eqn:Hu.
  2:{ unfold replicate_encounter in H. unfold bind at 1 in H. unfold subst in H.
      rewrite Hu in H. discriminate. }
  destruct (snd (axios_get E (proxy_url E ("/Encounter/" ++ u)) (net s)))
    as [msg|enc] eqn:Hget.
  { rewrite (replicate_encounter_fetch_failed _ _ _ _ Hu Hget) in H. discriminate. }
  rewrite (replicate_encounter_fetched _ _ _ _ Hu Hget) in H.
  destruct (putToNode enc (fetched ("/Encounter/" ++ u) s)) as [[status|t] s'] eqn:Hput;
    [|discriminate].
  injection H as <- <-. exists u, status, s'. repeat split; auto.
  - eapply putToNode_returns_nonnull; eauto.
  - pose proof (putToNode_results enc (fetched ("/Encounter/" ++ u) s)) as Hr.
    rewrite Hput in Hr. cbn [pushed results snd] in *. rewrite Hr. reflexivity.
Qed.

Lemma patientId_of_none encounter (s : state E) :
  nullish encounter = false ->
  no_subject_reference encounter = true ->
  patientId_of encounter s = (Return VUndef, s).
Proof.
  intros Hn H. unfold patientId_of.
  unfold bind at 1. rewrite (get_prop_run _ _ _ Hn).
  unfold no_subject_reference in H.
  destruct (nullish (prop encounter "subject")) eqn:Hs; [reflexivity|].
  unfold bind at 1. rewrite (get_prop_run _ _ _ Hs).
  cbn [orb] in H. rewrite H. reflexivity.
Qed.

Lemma patientId_of_reference encounter r (s : state E) :
  nullish encounter = false ->
  nullish (prop encounter "subject") = false ->
  prop (prop encounter "subject") "reference" = VStr r ->
  patientId_of encounter s = (Return (pop (split "/" r)), s).
Proof.
  intros Hn Hs Hr. unfold patientId_of.
  unfold bind at 1. rewrite (get_prop_run _ _ _ Hn), Hs.
  unfold bind at 1. rewrite (get_prop_run _ _ _ Hs), Hr. reflexivity.
Qed.

(** Step 2 does nothing when the Encounter names no Patient. *)
Lemma replicate_patient_skipped encounter (s : state E) :
  nullish encounter = false ->
  no_subject_reference encounter = true ->
  replicate_patient encounter s = (Return tt, s).
Proof.
  intros Hn H. unfold replicate_patient, bind.
  rewrite (patientId_of_none _ _ Hn H). reflexivity.
Qed.

(** Step 2 when the Encounter names the Patient [p]. *)
Lemma replicate_patient_named encounter r p (s : state E) :
  nullish encounter = false ->
  nullish (prop encounter "subject") = false ->
  prop (prop encounter "subject") "reference" = VStr r ->
  pop (split "/" r) = VStr p ->
  p <> ""%string ->
  replicate_patient encounter s
  = match snd (axios_get E (proxy_url E ("/Patient/" ++ p)) (net s)) with
    | inl msg => (Throw (AxiosError msg), fetched ("/Patient/" ++ p) s)
    | inr patient =>
        match putToNode patient (fetched ("/Patient/" ++ p) s) with
        | (Return status, s') => (Return tt, pushed status s')
        | (Throw t, s') => (Throw t, s')
        end
    end.
Proof.
  intros Hn Hs Hr Hp Hne. unfold replicate_patient.
  unfold bind at 1. rewrite (patientId_of_reference _ _ _ Hn Hs Hr), Hp.
  assert (Ht : truthy (VStr p) = true).
  { cbn. destruct (String.eqb_spec p ""); [contradiction | reflexivity]. }
  rewrite Ht. unfold bind at 1. rewrite (subst_run (VStr p) p _ eq_refl).
  unfold bind at 1. rewrite getFromProxy_run. fold (fetched ("/Patient/" ++ p) s).
  destruct (snd (axios_get E (proxy_url E ("/Patient/" ++ p)) (net s))) as [msg|patient];
    [reflexivity|].
  unfold bind, results_push, modify, pushed.
  destruct (putToNode patient (fetched ("/Patient/" ++ p) s)) as [[status|t] s'];
    reflexivity.
Qed.

(** Step 3 always answers [ok] once [uuid] has been printed. *)
Lemma replicate_related_run uuid u (s : state E) :
  ToString uuid = Some u ->
  replicate_related uuid s
  = (Return (ok_response uuid
               (length (results (snd (for_of (resourceQueries_of u) process_type s))))),
     snd (for_of (resourceQueries_of u) process_type s)).
Proof.
  intros Hu. unfold replicate_related.
  unfold bind at 1. unfold resourceQueries. unfold bind at 1.
  rewrite (subst_run _ _ _ Hu). cbn [ret].
  unfold bind at 1.
  pose proof (for_of_process_type_returns (resourceQueries_of u) s) as Hret.
  destruct (for_of (resourceQueries_of u) process_type s) as [[[]|t] s1];
    [reflexivity | discriminate].
Qed.

(** The whole [try] block, once steps 1 and 2 have succeeded. *)
Lemma replicate_after_subject uuid u encounter (s s1 s2 : state E) :
  ToString uuid = Some u ->
  replicate_encounter uuid s = (Return encounter, s1) ->
  replicate_patient encounter s1 = (Return tt, s2) ->
  replicate uuid s = replicate_related uuid s2.
Proof.
  intros Hu H1 H2. unfold replicate.
  unfold bind at 1. rewrite H1. unfold bind at 1. rewrite H2. reflexivity.
Qed.

Lemma replicate_root_failed uuid t (s s1 : state E) :
  replicate_encounter uuid s = (Throw t, s1) ->
  replicate uuid s = (Throw t, s1).
Proof.
  intros H1. unfold replicate. unfold bind at 1. rewrite H1. reflexivity.
Qed.

Lemma replicate_subject_failed uuid encounter t (s s1 s2 : state E) :
  replicate_encounter uuid s = (Return encounter, s1) ->
  replicate_patient encounter s1 = (Throw t, s2) ->
  replicate uuid s = (Throw t, s2).
Proof.
  intros H1 H2. unfold replicate.
  unfold bind at 1. rewrite H1. unfold bind at 1. rewrite H2. reflexivity.
Qed.

End RootAndSubject.

(* ================================================================== *)
(** ** The admission claims *)

Section AdmissionClaims.

Context {E : Env}.

Lemma spec_trace {A} (m : M E A) q k (s : state E) :
  spec q k m -> exists evs, trace (snd (m s)) = trace s ++ evs.
Proof.
  intros H. destruct (H s) as (_ & _ & _ & _ & evs & rs & H5 & _). eauto.
Qed.

(** The [try] block starts with the GET of the Encounter. *)
Lemma replicate_starts_with_fetch uuid u (s : state E) :
  ToString uuid = Some u ->
  exists evs,
    trace (snd (replicate uuid s))
    = trace s ++ EvGet (proxy_url E ("/Encounter/" ++ u))
                       (snd (axios_get E (proxy_url E ("/Encounter/" ++ u)) (net s)))
                 :: evs.
Proof.
  intros Hu.
  set (path := ("/Encounter/" ++ u)%string).
  assert (Hf : forall evs, trace (fetched path s) ++ evs
                      = trace s ++ EvGet (proxy_url E path)
                                         (snd (axios_get E (proxy_url E path) (net s)))
                                    :: evs).
  { intros evs. unfold fetched, with_net. cbn [trace]. rewrite <- app_assoc. reflexivity. }
  destruct (snd (axios_get E (proxy_url E path) (net s))) as [msg|enc] eqn:Hget.
  - rewrite (replicate_root_failed _ _ _ _ (replicate_encounter_fetch_failed _ _ _ _ Hu Hget)).
    exists []. cbn [snd]. rewrite <- Hf, app_nil_r. reflexivity.
  - pose proof (replicate_encounter_fetched _ _ _ _ Hu Hget) as Henc. fold path in Henc.
    destruct (spec_trace (putToNode enc) true 1 (fetched path s) (spec_putToNode _ _))
      as [e1 H1].
    destruct (putToNode enc (fetched path s)) as [[status|t] s'] eqn:Hput; cbn [snd] in H1.
    + destruct (spec_trace (replicate_patient enc) false 0 (pushed status s')
                           (spec_replicate_patient _)) as [e2 H2].
      destruct (replicate_patient enc (pushed status s')) as [[[]|t] s2] eqn:Hpat;
        cbn [snd] in H2.
      * rewrite (replicate_after_subject _ _ _ _ _ _ Hu Henc Hpat).
        destruct (spec_trace (replicate_related uuid) false 0 s2
                             (spec_replicate_related _)) as [e3 H3].
        exists (e1 ++ e2 ++ e3). rewrite H3, H2. cbn [pushed trace]. rewrite H1.
        rewrite <- !app_assoc. apply Hf.
      * rewrite (replicate_subject_failed _ _ _ _ _ _ Henc Hpat). cbn [snd].
        exists (e1 ++ e2). rewrite H2. cbn [pushed trace]. rewrite H1.
        rewrite <- !app_assoc. apply Hf.
    + rewrite (replicate_root_failed _ _ _ _ Henc). cbn [snd].
      exists e1. rewrite H1. apply Hf.
Qed.

(** C10.  A posted body whose [uuid] is falsy (absent, [null], [false],
    0 or the empty string) is answered 400 by the handler itself, and
    the state is untouched: nothing is added to [seen], nothing is
    written, fetched or delivered. *)
Theorem falsy_uuid_rejected body (s : state E) :
  nullish body = false ->
  truthy (prop body "uuid") = false ->
  handler body s = (Return missing_response, s)
  /\ code missing_response = 400.
Proof.
  intros Hn H. split; [|reflexivity].
  unfold handler. unfold bind at 1. rewrite (get_prop_run _ _ _ Hn), H. reflexivity.
Qed.

(** C2.  The first request that carries a given truthy [uuid] is
    admitted: its answer is not the duplicate one, and right after the
    write of [seen] it fetches the Encounter, the first step of the
    [try] block that fetches and delivers.  Every later request with the
    same [uuid] (for an array or an object: the same heap object),
    whatever was served in between, is answered 200 [duplicado] and
    leaves the state as it is: no fetch, no delivery, no write. *)
Theorem admission_idempotent ref fields u (s : state E) :
  truthy (lookup "uuid" fields) = true ->
  Set_has (seen s) (lookup "uuid" fields) = false ->
  ToString (lookup "uuid" fields) = Some u ->
  let uuid := lookup "uuid" fields in
  let first := handler (VObj ref fields) s in
  (exists resp content answer evs,
      fst first = Return resp /\
      resp <> duplicate_response uuid /\
      first = try_catch (replicate uuid) handler_catch (recorded uuid s) /\
      trace (snd first)
      = trace s ++ EvWriteFile SEEN_FILE content
                :: EvGet (proxy_url E ("/Encounter/" ++ u)) answer :: evs)
  /\
  (forall between ref' fields',
      lookup "uuid" fields' = uuid ->
      let s2 := serve between (snd first) in
      handler (VObj ref' fields') s2 = (Return (duplicate_response uuid), s2)
      /\ code (duplicate_response uuid) = 200).
Proof.
  intros H Hs Hu uuid first. split.
  - destruct (replicate_starts_with_fetch uuid u (recorded uuid s) Hu) as [evs Ht].
    assert (Hsnd : snd first = snd (replicate uuid (recorded uuid s))
                   /\ exists resp, fst first = Return resp
                                   /\ resp <> duplicate_response uuid).
    { unfold first.
      destruct (handler_handled ref fields s H Hs) as [s' Hr | e s' Hr];
        fold uuid in Hr; rewrite Hr; (split; [reflexivity|]); eexists;
        (split; [reflexivity|]); discriminate. }
    destruct Hsnd as [Hsnd (resp & Hresp & Hne)].
    exists resp. eexists _, _, evs. repeat split; auto.
    + apply handler_admitted; assumption.
    + rewrite Hsnd, Ht. cbn [recorded trace net]. rewrite <- app_assoc. reflexivity.
  - intros between ref' fields' Heq s2. split; [|reflexivity].
    apply duplicate_ever_after; assumption.
Qed.

(** C4.  An admitted [uuid] is added to [seen], and the write of the
    enlarged set is started, before anything else the request does, its
    fetches included; this holds however the request ends, so also when
    it is answered with an error.  No request removes a member of
    [seen], and a later request with the same [uuid] is never admitted
    again. *)
Theorem seen_append_only ref fields (s : state E) :
  truthy (lookup "uuid" fields) = true ->
  Set_has (seen s) (lookup "uuid" fields) = false ->
  let uuid := lookup "uuid" fields in
  let s' := snd (handler (VObj ref fields) s) in
  (seen (recorded uuid s) = seen s ++ [uuid] /\
   seen s' = seen s ++ [uuid] /\
   Set_has (seen s') uuid = true /\
   exists evs,
     trace s' = trace s ++ EvWriteFile SEEN_FILE
                             (JSON_stringify E (VArr 0 (seen s ++ [uuid])))
                        :: evs)
  /\
  (forall bodies (s0 : state E) v, In v (seen s0) -> In v (seen (serve bodies s0)))
  /\
  (forall between ref' fields',
      lookup "uuid" fields' = uuid ->
      handler (VObj ref' fields') (serve between s')
      = (Return (duplicate_response uuid), serve between s')).
Proof.
  intros H Hs uuid s'. split; [|split].
  - destruct (handler_admitted_frame ref fields s H Hs) as (Hseen & evs & Htr & _).
    fold uuid in Hseen, Htr. fold s' in Hseen, Htr.
    repeat split.
    + cbn [recorded seen]. apply Set_add_new. exact Hs.
    + exact Hseen.
    + rewrite Hseen, Set_has_app. cbn. rewrite SameValueZero_refl. apply orb_true_r.
    + exists evs. exact Htr.
  - intros bodies s0 v. apply serve_keeps_members.
  - intros between ref' fields' Heq.
    apply (duplicate_ever_after ref fields s between ref' fields' H Hs Heq).
Qed.

End AdmissionClaims.

(* ================================================================== *)
(** ** The failure claims *)

Section FailureClaims.

Context {E : Env}.

Lemma handler_catch_run e (s : state E) :
  handler_catch (ThrowErr e) s = (Return (error_response (err_message e)), s).
Proof. reflexivity. Qed.

Lemma handler_error ref fields e (s s1 : state E) :
  truthy (lookup "uuid" fields) = true ->
  Set_has (seen s) (lookup "uuid" fields) = false ->
  replicate (lookup "uuid" fields) (recorded (lookup "uuid" fields) s)
  = (Throw (ThrowErr e), s1) ->
  handler (VObj ref fields) s = (Return (error_response (err_message e)), s1).
Proof.
  intros H Hs Hr. rewrite handler_admitted by assumption.
  unfold try_catch. rewrite Hr. apply handler_catch_run.
Qed.

Lemma handler_ok ref fields resp (s s1 : state E) :
  truthy (lookup "uuid" fields) = true ->
  Set_has (seen s) (lookup "uuid" fields) = false ->
  replicate (lookup "uuid" fields) (recorded (lookup "uuid" fields) s)
  = (Return resp, s1) ->
  handler (VObj ref fields) s = (Return resp, s1).
Proof.
  intros H Hs Hr. rewrite handler_admitted by assumption.
  unfold try_catch. rewrite Hr. reflexivity.
Qed.

(** The answer once steps 1 and 2 have succeeded: [ok], with the number
    of PUTs of the request that were answered with success. *)
Lemma handler_ok_counts ref fields u encounter (s s1 s2 : state E) :
  truthy (lookup "uuid" fields) = true ->
  Set_has (seen s) (lookup "uuid" fields) = false ->
  ToString (lookup "uuid" fields) = Some u ->
  replicate_encounter (lookup "uuid" fields) (recorded (lookup "uuid" fields) s)
  = (Return encounter, s1) ->
  replicate_patient encounter s1 = (Return tt, s2) ->
  let s3 := snd (for_of (resourceQueries_of u) process_type s2) in
  handler (VObj ref fields) s
  = (Return (ok_response (lookup "uuid" fields) (length (results s3))), s3)
  /\ exists evs,
       trace s3 = trace s ++ evs /\ length (results s3) = delivered evs.
Proof.
  intros H Hs Hu H1 H2 s3.
  assert (Hh : handler (VObj ref fields) s
               = (Return (ok_response (lookup "uuid" fields) (length (results s3))), s3)).
  { apply handler_ok; try assumption.
    rewrite (replicate_after_subject _ _ _ _ _ _ Hu H1 H2).
    apply replicate_related_run. exact Hu. }
  split; [exact Hh|].
  destruct (handler_admitted_frame ref fields s H Hs) as (_ & evs & Htr & Hlen).
  rewrite Hh in Htr, Hlen. cbn [snd] in Htr, Hlen.
  eexists. split; [exact Htr | exact Hlen].
Qed.

(** C3.  For an admitted event whose [uuid] prints as [u]:
    - if the GET of the Encounter fails, the answer is 500 with that
      message, and the request has done nothing but its write and that
      GET: [results] is empty;
    - if the delivery of the Encounter fails, the answer is 500 with the
      message of the error, [results] is empty and no PUT succeeded;
    - in the loop over the related types, a type whose GET fails leaves
      [results] as it is and the loop goes on with the next type;
    - once the Encounter and the Patient step have succeeded the answer
      is [ok], whatever happens to the related types, and [sent] is the
      number of PUTs of the request that succeeded. *)
Theorem root_fatal_related_isolated ref fields u (s : state E) :
  truthy (lookup "uuid" fields) = true ->
  Set_has (seen s) (lookup "uuid" fields) = false ->
  ToString (lookup "uuid" fields) = Some u ->
  let uuid := lookup "uuid" fields in
  let path := ("/Encounter/" ++ u)%string in
  let s0 := recorded uuid s in
  (forall msg,
      snd (axios_get E (proxy_url E path) (net s)) = inl msg ->
      handler (VObj ref fields) s = (Return (error_response msg), fetched path s0)
      /\ code (error_response msg) = 500
      /\ results (fetched path s0) = []
      /\ exists content,
           trace (fetched path s0)
           = trace s ++ [EvWriteFile SEEN_FILE content;
                         EvGet (proxy_url E path) (inl msg)])
  /\
  (forall encounter t s1,
      snd (axios_get E (proxy_url E path) (net s)) = inr encounter ->
      putToNode encounter (fetched path s0) = (Throw t, s1) ->
      exists e,
        t = ThrowErr e
        /\ handler (VObj ref fields) s = (Return (error_response (err_message e)), s1)
        /\ results s1 = []
        /\ exists evs, trace s1 = trace (fetched path s0) ++ evs /\ delivered evs = 0)
  /\
  (forall type q rest msg (s' : state E),
      snd (axios_get E (proxy_url E q) (net s')) = inl msg ->
      for_of ((type, q) :: rest) process_type s'
      = for_of rest process_type (fetched q s')
      /\ results (fetched q s') = results s'
      /\ trace (fetched q s') = trace s' ++ [EvGet (proxy_url E q) (inl msg)])
  /\
  (forall encounter s1 s2,
      replicate_encounter uuid s0 = (Return encounter, s1) ->
      replicate_patient encounter s1 = (Return tt, s2) ->
      let s3 := snd (for_of (resourceQueries_of u) process_type s2) in
      exists evs,
        handler (VObj ref fields) s = (Return (ok_response uuid (delivered evs)), s3)
        /\ code (ok_response uuid (delivered evs)) = 200
        /\ trace s3 = trace s ++ evs).
Proof.
  intros H Hs Hu uuid path s0. split; [|split; [|split]].
  - intros msg Hget.
    assert (Hget0 : snd (axios_get E (proxy_url E path) (net s0)) = inl msg) by exact Hget.
    repeat split.
    + apply (handler_error ref fields (mkError "AxiosError" msg)); try assumption.
      apply replicate_root_failed.
      apply (replicate_encounter_fetch_failed uuid u msg s0 Hu Hget0).
    + eexists. unfold fetched, with_net, s0. cbn [recorded trace net].
      rewrite Hget, <- app_assoc. reflexivity.
  - intros encounter t s1 Hget Hput.
    assert (Hget0 : snd (axios_get E (proxy_url E path) (net s0)) = inr encounter)
      by exact Hget.
    destruct (putToNode_error _ _ _ _ Hput) as (e & -> & Hres & evs & Htr & Hdel & _).
    exists e. repeat split; auto.
    + apply handler_error; try assumption.
      apply replicate_root_failed.
      change (replicate_encounter uuid s0 = (Throw (ThrowErr e), s1)).
      rewrite (replicate_encounter_fetched uuid u encounter s0 Hu Hget0).
      fold path. rewrite Hput. reflexivity.
    + exists evs. split; assumption.
  - intros type q rest msg s' Hget. repeat split.
    + rewrite for_of_cons_run by apply process_type_returns.
      rewrite (process_type_unavailable type q msg s' Hget).
      unfold fetched. rewrite Hget. reflexivity.
    + unfold fetched, with_net. cbn [trace]. rewrite Hget. reflexivity.
  - intros encounter s1 s2 H1 H2 s3.
    destruct (handler_ok_counts ref fields u encounter s s1 s2 H Hs Hu H1 H2)
      as (Hh & evs & Htr & Hlen).
    fold s3 in Hh, Htr, Hlen. exists evs. rewrite <- Hlen. auto.
Qed.

Lemma get_prop_state v p (s : state E) : snd (get_prop v p s) = s.
Proof. destruct v; reflexivity. Qed.

Lemma opt_prop_state v p (s : state E) : snd (opt_prop v p s) = s.
Proof. unfold opt_prop. destruct (nullish v); [reflexivity | apply get_prop_state]. Qed.

(** An entry whose delivery raises adds nothing to [results]. *)
Lemma deliver_entry_error entry t (s s' : state E) :
  deliver_entry entry s = (Throw t, s') -> results s' = results s.
Proof.
  unfold deliver_entry. unfold bind at 1.
  pose proof (get_prop_state entry "resource" s) as G1.
  destruct (get_prop entry "resource" s) as [[resource|t1] s1]; cbn [snd] in G1; subst s1.
  2:{ intros H. injection H as _ <-. reflexivity. }
  unfold bind at 1.
  pose proof (opt_prop_state resource "resourceType" s) as G2.
  destruct (opt_prop resource "resourceType" s) as [[resourceType|t2] s2];
    cbn [snd] in G2; subst s2.
  2:{ intros H. injection H as _ <-. reflexivity. }
  unfold bind at 1.
  assert (G3 : snd ((if truthy resourceType then opt_prop resource "id"
                     else ret resourceType) s) = s).
  { destruct (truthy resourceType); [apply opt_prop_state | reflexivity]. }
  destruct ((if truthy resourceType then opt_prop resource "id" else ret resourceType) s)
    as [[id|t3] s3]; cbn [snd] in G3; subst s3.
  2:{ intros H. injection H as _ <-. reflexivity. }
  destruct (truthy id); [|discriminate].
  unfold bind, results_push, modify.
  pose proof (putToNode_results resource s) as G4.
  destruct (putToNode resource s) as [[status|t4] s4]; cbn [snd] in G4; [discriminate|].
  intros H. injection H as _ <-. exact G4.
Qed.

(** C5.  The bundle of a related type holds the entries
    [pre ++ bad :: post]; the entries [pre] are dealt with and the
    delivery of [bad] raises.  Then the iteration for that type ends in
    the state the failed delivery left, so the entries [post] are not
    touched; it ends normally, the error being absorbed; [results]
    keeps what [pre] pushed, one status per successful PUT; and the loop
    goes on with the other types, each of which is fetched, and never
    raises. *)
Theorem delivery_failure_ends_only_its_type
        type q bundle ref pre bad post t (s s1 s2 : state E) :
  snd (axios_get E (proxy_url E q) (net s)) = inr bundle ->
  nullish bundle = false ->
  prop bundle "entry" = VArr ref (pre ++ bad :: post) ->
  for_of pre deliver_entry (fetched q s) = (Return tt, s1) ->
  deliver_entry bad s1 = (Throw t, s2) ->
  process_type (type, q) s = (Return tt, s2)
  /\ results s2 = results s1
  /\ (exists rs evs,
         results s1 = results s ++ rs /\
         trace s1 = trace (fetched q s) ++ evs /\
         length rs = delivered evs)
  /\ (forall rest,
         for_of ((type, q) :: rest) process_type s = for_of rest process_type s2
         /\ fst (for_of rest process_type s2) = Return tt
         /\ exists evs,
              trace (snd (for_of rest process_type s2)) = trace s2 ++ evs
              /\ fetches evs = map (fun query => proxy_url E (snd query)) rest).
Proof.
  intros Hget Hn Hentry Hpre Hbad.
  assert (Hfd : fetch_and_deliver q s = (Throw t, s2)).
  { unfold fetch_and_deliver. unfold bind at 1. rewrite getFromProxy_run.
    fold (fetched q s). rewrite Hget.
    unfold bind at 1. rewrite (get_prop_run _ _ _ Hn), Hentry. cbn [truthy].
    unfold bind at 1. cbn [iterate ret].
    apply (for_of_raise pre bad post deliver_entry _ s1 s2 t Hpre Hbad). }
  assert (Hpt : process_type (type, q) s = (Return tt, s2)).
  { rewrite process_type_run. cbn [snd]. rewrite Hfd. reflexivity. }
  split; [exact Hpt|]. split; [exact (deliver_entry_error _ _ _ _ Hbad)|]. split.
  - destruct (spec_deliver_entries pre (fetched q s))
      as (_ & _ & _ & _ & evs & rs & H5 & H6 & H7 & _).
    rewrite Hpre in H5, H6, H7. cbn [fst snd] in H5, H6, H7.
    exists rs, evs. repeat split; auto. lia.
  - intros rest. split; [|split].
    + rewrite for_of_cons_run by apply process_type_returns. rewrite Hpt. reflexivity.
    + apply for_of_process_type_returns.
    + apply for_of_process_type_fetches.
Qed.

(** C6.  The Encounter has been fetched and delivered.
    - If it names no Patient, step 2 does nothing at all (no GET, no
      PUT, no push), the answer is [ok], and what follows the Encounter
      in the trace is the fetch of each related type and their
      deliveries: [sent] is 1 plus the successful PUTs among them.
    - If it names the Patient [p], a failed GET of the Patient or a
      failed delivery of it is answered 500, and the request ends in the
      state of that failure: no related type is fetched. *)
Theorem subject_optional ref fields u encounter (s s1 : state E) :
  truthy (lookup "uuid" fields) = true ->
  Set_has (seen s) (lookup "uuid" fields) = false ->
  ToString (lookup "uuid" fields) = Some u ->
  replicate_encounter (lookup "uuid" fields) (recorded (lookup "uuid" fields) s)
  = (Return encounter, s1) ->
  let uuid := lookup "uuid" fields in
  (no_subject_reference encounter = true ->
   let s3 := snd (for_of (resourceQueries_of u) process_type s1) in
   replicate_patient encounter s1 = (Return tt, s1)
   /\ handler (VObj ref fields) s
      = (Return (ok_response uuid (length (results s3))), s3)
   /\ code (ok_response uuid (length (results s3))) = 200
   /\ exists evs,
        trace s3 = trace s1 ++ evs
        /\ fetches evs = map (fun query => proxy_url E (snd query)) (resourceQueries_of u)
        /\ length (results s3) = 1 + delivered evs)
  /\
  (forall r p,
      nullish (prop encounter "subject") = false ->
      prop (prop encounter "subject") "reference" = VStr r ->
      pop (split "/" r) = VStr p ->
      p <> ""%string ->
      let path := ("/Patient/" ++ p)%string in
      (forall msg,
          snd (axios_get E (proxy_url E path) (net s1)) = inl msg ->
          handler (VObj ref fields) s = (Return (error_response msg), fetched path s1)
          /\ code (error_response msg) = 500)
      /\
      (forall patient t s2,
          snd (axios_get E (proxy_url E path) (net s1)) = inr patient ->
          putToNode patient (fetched path s1) = (Throw t, s2) ->
          exists e,
            t = ThrowErr e
            /\ handler (VObj ref fields) s
               = (Return (error_response (err_message e)), s2)
            /\ code (error_response (err_message e)) = 500)).
Proof.
  intros H Hs Hu H1 uuid.
  destruct (replicate_encounter_returned _ _ _ _ H1)
    as (u' & status & s' & _ & _ & _ & _ & Hnn & Hres).
  split.
  - intros Hno s3.
    pose proof (replicate_patient_skipped encounter s1 Hnn Hno) as H2.
    destruct (handler_ok_counts ref fields u encounter s s1 s1 H Hs Hu H1 H2)
      as (Hh & _).
    split; [exact H2|]. split; [exact Hh|]. split; [reflexivity|].
    destruct (for_of_process_type_fetches (resourceQueries_of u) s1) as (evs & Htr & Hf).
    destruct (spec_related_loop (resourceQueries_of u) s1)
      as (_ & _ & _ & _ & evs' & rs & H5 & H6 & H7 & _).
    fold s3 in Htr, H5, H6.
    assert (evs' = evs) by (apply (app_inv_head (trace s1)); congruence). subst evs'.
    exists evs. repeat split; auto.
    rewrite H6, Hres. cbn [recorded results app]. 
    rewrite for_of_process_type_returns in H7. cbn [length]. lia.
  - intros r p Hsub Href Hpop Hne path. split.
    + intros msg Hget. split; [|reflexivity].
      apply (handler_error ref fields (mkError "AxiosError" msg)); try assumption.
      apply (replicate_subject_failed _ encounter _ _ s1 _ H1).
      rewrite (replicate_patient_named encounter r p s1 Hnn Hsub Href Hpop Hne).
      fold path. rewrite Hget. reflexivity.
    + intros patient t s2 Hget Hput.
      destruct (putToNode_error _ _ _ _ Hput) as (e & -> & _).
      exists e. split; [reflexivity|]. split; [|reflexivity].
      apply handler_error; try assumption.
      apply (replicate_subject_failed _ encounter _ _ s1 _ H1).
      rewrite (replicate_patient_named encounter r p s1 Hnn Hsub Href Hpop Hne).
      fold path. rewrite Hget, Hput. reflexivity.
Qed.

End FailureClaims.

(* ================================================================== *)
(** ** The persisted set, and where the retry applies *)

Section PersistenceClaims.

Context {E : Env}.

Lemma recorded_set_disk uuid d (s : state E) :
  exists d', recorded uuid (set_disk d s) = set_disk d' (recorded uuid s).
Proof.
  eexists. unfold recorded, set_disk. cbn [net disk seen results trace]. reflexivity.
Qed.

(** The request does not depend on the disk. *)
Lemma handler_disk_blind body d (s : state E) :
  exists d',
    handler body (set_disk d s)
    = (fst (handler body s), set_disk d' (snd (handler body s))).
Proof.
  destruct body as [ | | b | n | str | ref items | ref fields];
    try (exists d; reflexivity).
  destruct (truthy (lookup "uuid" fields)) eqn:H.
  2:{ exists d. rewrite !handler_missing by assumption. reflexivity. }
  destruct (Set_has (seen s) (lookup "uuid" fields)) eqn:Hs.
  { exists d. rewrite !handler_duplicate by assumption. reflexivity. }
  rewrite !handler_admitted by assumption.
  destruct (recorded_set_disk (lookup "uuid" fields) d s) as [d' ->].
  exists d'. unfold try_catch.
  destruct (spec_replicate (lookup "uuid" fields) (recorded (lookup "uuid" fields) s))
    as (_ & _ & H3 & H4 & _).
  rewrite (H4 d').
  destruct (replicate (lookup "uuid" fields) (recorded (lookup "uuid" fields) s))
    as [[resp|[|e]] s1]; cbn [fst snd] in *; reflexivity.
Qed.

(** The start-up load, as a function of what the disk and the parser
    give. *)
Lemma load_seen_run (s : state E) :
  load_seen s
  = (Return tt,
     mkState (net s) (disk s)
       (if fs_existsSync E SEEN_FILE (disk s) then
          match fs_readFileSync E SEEN_FILE (disk s) with
          | inl _ => []
          | inr data =>
              match JSON_parse E data with
              | inl _ => []
              | inr (VArr _ items) => Set_of items
              | inr (VStr str) => Set_of (chars str)
              | inr _ => []
              end
          end
        else [])
       (results s) (trace s)).
Proof.
  destruct s as [w d sn rs tr].
  unfold load_seen, bind, try_catch, seen_assign, modify, existsSync, readFileSync,
    parse, new_Set, iterate, bind, ret, throw. cbn.
  destruct (fs_existsSync E SEEN_FILE d); cbn; [|reflexivity].
  destruct (fs_readFileSync E SEEN_FILE d) as [t|data]; cbn; [reflexivity|].
  destruct (JSON_parse E data) as [t|v]; cbn; [reflexivity|].
  destruct v; reflexivity.
Qed.

Lemma load_seen_returns (s : state E) : fst (load_seen s) = Return tt.
Proof. rewrite load_seen_run. reflexivity. Qed.

Lemma load_seen_missing (s : state E) :
  fs_existsSync E SEEN_FILE (disk s) = false -> seen (snd (load_seen s)) = [].
Proof. intros H. rewrite load_seen_run. cbn. rewrite H. reflexivity. Qed.

Lemma load_seen_unreadable (s : state E) t :
  fs_readFileSync E SEEN_FILE (disk s) = inl t -> seen (snd (load_seen s)) = [].
Proof.
  intros H. rewrite load_seen_run. cbn. rewrite H.
  destruct (fs_existsSync E SEEN_FILE (disk s)); reflexivity.
Qed.

Lemma load_seen_corrupt (s : state E) data t :
  fs_readFileSync E SEEN_FILE (disk s) = inr data ->
  JSON_parse E data = inl t ->
  seen (snd (load_seen s)) = [].
Proof.
  intros H Hp. rewrite load_seen_run. cbn. rewrite H, Hp.
  destruct (fs_existsSync E SEEN_FILE (disk s)); reflexivity.
Qed.

Lemma load_seen_not_iterable (s : state E) data v :
  fs_readFileSync E SEEN_FILE (disk s) = inr data ->
  JSON_parse E data = inr v ->
  (forall ref items, v <> VArr ref items) ->
  (forall str, v <> VStr str) ->
  seen (snd (load_seen s)) = [].
Proof.
  intros H Hp Ha Hstr. rewrite load_seen_run. cbn. rewrite H, Hp.
  destruct (fs_existsSync E SEEN_FILE (disk s)); [|reflexivity].
  destruct v; try reflexivity.
  - exfalso. eapply Hstr; reflexivity.
  - exfalso. eapply Ha; reflexivity.
Qed.

(** C8.  Whatever the disk is, and so whether the write of [seen]
    succeeds or fails, a request gets the same answer and leaves the
    same state, the disk apart: the outcome of the write reaches
    nothing but the disk.  The load at start-up never raises, and it
    leaves [seen] empty when the file is missing, cannot be read, does
    not parse, or parses to a value that cannot be iterated over. *)
Theorem persist_failure_swallowed :
  (forall body d (s : state E),
      exists d',
        handler body (set_disk d s)
        = (fst (handler body s), set_disk d' (snd (handler body s))))
  /\
  (forall s : state E,
      fst (load_seen s) = Return tt
      /\ (fs_existsSync E SEEN_FILE (disk s) = false -> seen (snd (load_seen s)) = [])
      /\ (forall t, fs_readFileSync E SEEN_FILE (disk s) = inl t ->
                    seen (snd (load_seen s)) = [])
      /\ (forall data t, fs_readFileSync E SEEN_FILE (disk s) = inr data ->
                         JSON_parse E data = inl t ->
                         seen (snd (load_seen s)) = [])
      /\ (forall data v, fs_readFileSync E SEEN_FILE (disk s) = inr data ->
                         JSON_parse E data = inr v ->
                         (forall ref items, v <> VArr ref items) ->
                         (forall str, v <> VStr str) ->
                         seen (snd (load_seen s)) = [])).
Proof.
  split.
  - intros body d s. apply handler_disk_blind.
  - intros s. split; [apply load_seen_returns|]. split; [apply load_seen_missing|].
    split; [apply load_seen_unreadable|]. split; [apply load_seen_corrupt|].
    apply load_seen_not_iterable.
Qed.


End PersistenceClaims.

(* ================================================================== *)
(** ** The set of seen identifiers across requests and restarts *)

Section SeenSet.

Context {E : Env}.

Lemma SameValueZero_eq a b c :
  SameValueZero a b = true -> SameValueZero a c = SameValueZero b c.
Proof.
  destruct a, b; cbn; try discriminate; intros H; try reflexivity.
  - apply Bool.eqb_prop in H. subst. reflexivity.
  - apply Z.eqb_eq in H. subst. reflexivity.
  - apply String.eqb_eq in H. subst. reflexivity.
  - apply Nat.eqb_eq in H. subst. destruct c; reflexivity.
  - apply Nat.eqb_eq in H. subst. destruct c; reflexivity.
Qed.

Lemma SameValueZero_sym a b : SameValueZero a b = SameValueZero b a.
Proof.
  destruct a, b; cbn; try reflexivity.
  - destruct b, b0; reflexivity.
  - apply Z.eqb_sym.
  - apply String.eqb_sym.
  - apply Nat.eqb_sym.
  - apply Nat.eqb_sym.
Qed.

Lemma Set_has_same l a b :
  SameValueZero a b = true -> Set_has l a = Set_has l b.
Proof.
  intros H. unfold Set_has. induction l as [|x l IH]; [reflexivity|].
  cbn [existsb]. rewrite IH. f_equal. apply SameValueZero_eq. exact H.
Qed.

Lemma Set_has_Set_add l u v :
  Set_has (Set_add l u) v = Set_has l v || SameValueZero v u.
Proof.
  unfold Set_add. destruct (Set_has l u) eqn:Hu.
  - destruct (SameValueZero v u) eqn:Hvu.
    + rewrite (Set_has_same l v u Hvu), Hu. reflexivity.
    + rewrite orb_false_r. reflexivity.
  - rewrite Set_has_app. cbn. rewrite orb_false_r. reflexivity.
Qed.

Lemma Set_has_fold items :
  forall acc v,
    Set_has (fold_left Set_add items acc) v = Set_has acc v || Set_has items v.
Proof.
  induction items as [|x items IH]; intros acc v; cbn [fold_left].
  - cbn. rewrite orb_false_r. reflexivity.
  - rewrite IH, Set_has_Set_add. cbn [Set_has existsb].
    rewrite orb_assoc. reflexivity.
Qed.

(** [new Set(items)] has what [items] holds. *)
Lemma Set_has_Set_of items v : Set_has (Set_of items) v = Set_has items v.
Proof. unfold Set_of. rewrite Set_has_fold. reflexivity. Qed.

Lemma distinct_app_one l v :
  distinct l = true -> Set_has l v = false -> distinct (l ++ [v]) = true.
Proof.
  induction l as [|x l IH]; intros Hd Hv; [reflexivity|].
  cbn [distinct app] in *. apply andb_true_iff in Hd. destruct Hd as [Hx Hl].
  cbn [Set_has existsb] in Hv. apply orb_false_iff in Hv. destruct Hv as [Hvx Hvl].
  rewrite existsb_app. cbn [existsb]. rewrite orb_false_r.
  rewrite SameValueZero_sym, Hvx, orb_false_r, Hx. cbn. apply IH; assumption.
Qed.

Lemma distinct_Set_add l v : distinct l = true -> distinct (Set_add l v) = true.
Proof.
  intros Hd. unfold Set_add. destruct (Set_has l v) eqn:Hv; [exact Hd|].
  apply distinct_app_one; assumption.
Qed.

Lemma distinct_fold items :
  forall acc, distinct acc = true -> distinct (fold_left Set_add items acc) = true.
Proof.
  induction items as [|x items IH]; intros acc Hd; [exact Hd|].
  cbn [fold_left]. apply IH, distinct_Set_add, Hd.
Qed.

Lemma distinct_Set_of items : distinct (Set_of items) = true.
Proof. apply distinct_fold. reflexivity. Qed.

Lemma distinct_app_inv l l' : distinct (l ++ l') = true -> distinct l' = true.
Proof.
  induction l as [|x l IH]; intros H; [exact H|].
  cbn [app distinct] in H. apply andb_true_iff in H. apply IH, H.
Qed.

Lemma fold_Set_add_distinct items :
  forall acc, distinct (acc ++ items) = true -> fold_left Set_add items acc = acc ++ items.
Proof.
  induction items as [|x items IH]; intros acc Hd; cbn [fold_left].
  - rewrite app_nil_r. reflexivity.
  - assert (Hx : Set_has acc x = false).
    { clear IH. induction acc as [|y acc IHa]; [reflexivity|].
      cbn [app distinct] in Hd. apply andb_true_iff in Hd. destruct Hd as [Hy Hrest].
      cbn [Set_has existsb]. rewrite existsb_app in Hy. cbn [existsb] in Hy.
      apply negb_true_iff, orb_false_iff in Hy. destruct Hy as [_ Hy].
      apply orb_false_iff in Hy. destruct Hy as [Hyx _].
      rewrite SameValueZero_sym, Hyx. cbn. apply IHa, Hrest. }
    rewrite (Set_add_new _ _ Hx).
    replace (acc ++ x :: items) with ((acc ++ [x]) ++ items) in *
      by (rewrite <- app_assoc; reflexivity).
    apply IH. exact Hd.
Qed.

(** [new Set(l)] is [l] itself when [l] has no two same members. *)
Lemma Set_of_distinct l : distinct l = true -> Set_of l = l.
Proof. intros H. unfold Set_of. apply (fold_Set_add_distinct l []). exact H. Qed.

Lemma load_seen_distinct (s : state E) : distinct (seen (snd (load_seen s))) = true.
Proof.
  rewrite load_seen_run. cbn -[Set_of Set_has distinct].
  destruct (fs_existsSync E SEEN_FILE (disk s)); [|reflexivity].
  destruct (fs_readFileSync E SEEN_FILE (disk s)) as [t|data]; [reflexivity|].
  destruct (JSON_parse E data) as [t|v]; [reflexivity|].
  destruct v; try reflexivity; apply distinct_Set_of.
Qed.

Lemma handler_distinct body (s : state E) :
  distinct (seen s) = true -> distinct (seen (snd (handler body s))) = true.
Proof.
  intros Hd.
  destruct (handler_frame body s) as [-> | (ref & fields & _ & _ & Hs & Hseen)].
  - exact Hd.
  - rewrite Hseen. apply distinct_app_one; assumption.
Qed.

Lemma serve_distinct bodies :
  forall s : state E,
    distinct (seen s) = true -> distinct (seen (serve bodies s)) = true.
Proof.
  induction bodies as [|body rest IH]; intros s Hd; [exact Hd|].
  cbn [serve fold_left]. apply IH, handler_distinct, Hd.
Qed.

(** X6.  In every state the process can reach, that is after the load
    at start-up and any sequence of requests, [seen] holds no two
    members that are the same for [Set]. *)
Theorem seen_never_holds_duplicates bodies (s : state E) :
  distinct (seen (serve bodies (snd (load_seen s)))) = true.
Proof. apply serve_distinct, load_seen_distinct. Qed.

(** X7.  A process that starts from a store holding the array [items]
    answers [duplicado], without any effect, to a request whose [uuid]
    is truthy and is one of [items]: what was seen before the restart
    stays seen. *)
Theorem restart_keeps_duplicates data aref items ref fields (s : state E) :
  fs_existsSync E SEEN_FILE (disk s) = true ->
  fs_readFileSync E SEEN_FILE (disk s) = inr data ->
  JSON_parse E data = inr (VArr aref items) ->
  truthy (lookup "uuid" fields) = true ->
  Set_has items (lookup "uuid" fields) = true ->
  let s1 := snd (load_seen s) in
  handler (VObj ref fields) s1
  = (Return (duplicate_response (lookup "uuid" fields)), s1)
  /\ trace s1 = trace s.
Proof.
  intros He Hr Hp Ht Hin s1. split.
  - apply handler_duplicate; [exact Ht|].
    unfold s1. rewrite load_seen_run. cbn -[Set_of Set_has distinct]. rewrite He, Hr, Hp.
    rewrite Set_has_Set_of. exact Hin.
  - unfold s1. rewrite load_seen_run. reflexivity.
Qed.

(** X8.  What an admitted request writes is what a restart reads: when
    the file written by the request can be read back and parses to the
    array that was serialised, the load of a new process on that disk
    gives the [seen] the old process had, order included. *)
Theorem persisted_seen_is_restored ref fields aref (s s_new : state E) :
  truthy (lookup "uuid" fields) = true ->
  Set_has (seen s) (lookup "uuid" fields) = false ->
  distinct (seen s) = true ->
  let s' := snd (handler (VObj ref fields) s) in
  let content := JSON_stringify E (VArr 0 (seen s')) in
  disk s_new = disk s' ->
  fs_existsSync E SEEN_FILE (disk s') = true ->
  fs_readFileSync E SEEN_FILE (disk s') = inr content ->
  JSON_parse E content = inr (VArr aref (seen s')) ->
  seen (snd (load_seen s_new)) = seen s'
  /\ disk s' = fst (fs_writeFile E SEEN_FILE content (disk s)).
Proof.
  intros Ht Hs Hd s' content Hdisk He Hr Hp. split.
  - rewrite load_seen_run. cbn -[Set_of Set_has distinct]. rewrite Hdisk, He, Hr, Hp.
    apply Set_of_distinct. unfold s'. apply handler_distinct. exact Hd.
  - destruct (handler_admitted_frame ref fields s Ht Hs) as [Hseen _].
    fold s' in Hseen.
    assert (Hsnd : s' = snd (replicate (lookup "uuid" fields)
                                       (recorded (lookup "uuid" fields) s))).
    { unfold s'. destruct (handler_handled ref fields s Ht Hs) as [s1 Hr1 | e s1 Hr1];
        rewrite Hr1; reflexivity. }
    destruct (spec_replicate (lookup "uuid" fields) (recorded (lookup "uuid" fields) s))
      as (_ & H2 & _).
    rewrite <- Hsnd in H2. rewrite H2. unfold content. rewrite Hseen.
    cbn [recorded disk]. rewrite (Set_add_new _ _ Hs). reflexivity.
Qed.

(** X1.  The handler answers every request that has a body: with 400,
    200 or 500, never with a rejection.  On a body that is [null] or
    [undefined] it raises a [TypeError] before doing anything. *)
Theorem handler_always_answers body (s : state E) :
  (nullish body = false ->
   exists resp,
     fst (handler body s) = Return resp
     /\ (code resp = 400 \/ code resp = 200 \/ code resp = 500))
  /\
  (nullish body = true ->
   exists e, handler body s = (Throw (ThrowErr e), s)).
Proof.
  split.
  - intros Hn.
    destruct body as [ | | b | n | str | ref items | ref fields];
      try discriminate;
      try (exists missing_response; split; [reflexivity | left; reflexivity]).
    destruct (truthy (lookup "uuid" fields)) eqn:Ht.
    2:{ rewrite handler_missing by assumption.
        exists missing_response. split; [reflexivity | left; reflexivity]. }
    destruct (Set_has (seen s) (lookup "uuid" fields)) eqn:Hs.
    { rewrite handler_duplicate by assumption.
      eexists. split; [reflexivity | right; left; reflexivity]. }
    destruct (handler_handled ref fields s Ht Hs) as [s' Hr | e s' Hr].
    + eexists. split; [reflexivity | right; left; reflexivity].
    + eexists. split; [reflexivity | right; right; reflexivity].
  - intros Hn. destruct (get_prop_nullish body "uuid" s Hn) as [e He].
    exists e. unfold handler. unfold bind at 1. rewrite He. reflexivity.
Qed.

End SeenSet.

(* ================================================================== *)
(** ** Edge cases of one event *)

Section EdgeCases.

Context {E : Env}.

Lemma split_nonempty sep s : split sep s <> [].
Proof.
  destruct s as [|c r]; cbn; [discriminate|].
  destruct (Ascii.eqb c sep); [discriminate|].
  destruct (split sep r); discriminate.
Qed.

Lemma split_no_sep sep s : contains sep s = false -> split sep s = [s].
Proof.
  induction s as [|c r IH]; cbn; intros H; [reflexivity|].
  apply orb_false_iff in H. destruct H as [Hc Hr].
  rewrite Hc, (IH Hr). reflexivity.
Qed.

Lemma split_app sep a b :
  split sep (a ++ String sep b) = split sep a ++ split sep b.
Proof.
  induction a as [|c a IH]; cbn.
  - rewrite Ascii.eqb_refl. reflexivity.
  - destruct (Ascii.eqb c sep); [rewrite IH; reflexivity|].
    rewrite IH. destruct (split sep a) as [|h t] eqn:Hs.
    + exfalso. exact (split_nonempty sep a Hs).
    + reflexivity.
Qed.

Lemma pop_last l b : pop (l ++ [b]) = VStr b.
Proof. unfold pop. rewrite rev_app_distr. reflexivity. Qed.

(** [r.split('/').pop()] is what follows the last slash of [r]. *)
Lemma pop_split_last pre id :
  contains "/" id = false ->
  pop (split "/" (pre ++ String "/" id)) = VStr id
  /\ pop (split "/" id) = VStr id.
Proof.
  intros H. split.
  - rewrite split_app, (split_no_sep _ _ H). apply pop_last.
  - rewrite (split_no_sep _ _ H). reflexivity.
Qed.

(** X2.  The Patient the handler asks for is named by what follows the
    last slash of [encounter.subject.reference], the whole reference
    when it has no slash; a reference that ends with a slash names
    nobody, and the Patient step then does nothing. *)
Theorem patientId_is_last_segment encounter r pre id (s : state E) :
  nullish encounter = false ->
  nullish (prop encounter "subject") = false ->
  prop (prop encounter "subject") "reference" = VStr r ->
  contains "/" id = false ->
  r = id \/ r = (pre ++ String "/" id)%string ->
  patientId_of encounter s = (Return (VStr id), s)
  /\ (id = ""%string -> replicate_patient encounter s = (Return tt, s))
  /\ (id <> ""%string ->
      replicate_patient encounter s
      = match snd (axios_get E (proxy_url E ("/Patient/" ++ id)) (net s)) with
        | inl msg => (Throw (AxiosError msg), fetched ("/Patient/" ++ id) s)
        | inr patient =>
            match putToNode patient (fetched ("/Patient/" ++ id) s) with
            | (Return status, s') => (Return tt, pushed status s')
            | (Throw t, s') => (Throw t, s')
            end
        end).
Proof.
  intros Hn Hs Href Hid Hr.
  assert (Hpop : pop (split "/" r) = VStr id).
  { destruct (pop_split_last pre id Hid) as [H1 H2].
    destruct Hr as [-> | ->]; assumption. }
  assert (Hp : patientId_of encounter s = (Return (VStr id), s)).
  { rewrite (patientId_of_reference encounter r s Hn Hs Href), Hpop. reflexivity. }
  split; [exact Hp|]. split.
  - intros ->. unfold replicate_patient, bind. rewrite Hp. reflexivity.
  - intros Hne. apply (replicate_patient_named encounter r id s Hn Hs Href Hpop Hne).
Qed.

Lemma opt_prop_run v p (s : state E) : opt_prop v p s = (Return (prop v p), s).
Proof.
  unfold opt_prop. destruct (nullish v) eqn:Hn.
  - destruct v; try discriminate; reflexivity.
  - apply get_prop_run. exact Hn.
Qed.

Lemma deliver_entry_run entry (s : state E) :
  nullish entry = false ->
  deliver_entry entry s
  = if complete entry then
      match putToNode (prop entry "resource") s with
      | (Return status, s') => (Return tt, pushed status s')
      | (Throw t, s') => (Throw t, s')
      end
    else (Return tt, s).
Proof.
  intros Hn. unfold deliver_entry, complete.
  unfold bind at 1. rewrite (get_prop_run _ _ _ Hn).
  unfold bind at 1. rewrite opt_prop_run.
  unfold bind at 1.
  destruct (truthy (prop (prop entry "resource") "resourceType")) eqn:Ht.
  - rewrite opt_prop_run. cbn [andb].
    destruct (truthy (prop (prop entry "resource") "id")); [|reflexivity].
    unfold bind, results_push, modify, pushed.
    destruct (putToNode (prop entry "resource") s) as [[status|t] s']; reflexivity.
  - cbn [ret andb]. rewrite Ht. reflexivity.
Qed.

(** X3.  An entry of a bundle that has no resource, or whose resource
    lacks a truthy [resourceType] or [id], is passed over: no PUT, no
    push, no error.  A [null] entry raises before anything is done.  A
    complete entry is delivered and its status pushed; if its delivery
    raises, so does the entry. *)
Theorem incomplete_entries_are_skipped entry (s : state E) :
  (nullish entry = false -> complete entry = false ->
   deliver_entry entry s = (Return tt, s))
  /\
  (nullish entry = true ->
   exists e, deliver_entry entry s = (Throw (ThrowErr e), s))
  /\
  (nullish entry = false -> complete entry = true ->
   deliver_entry entry s
   = match putToNode (prop entry "resource") s with
     | (Return status, s') => (Return tt, pushed status s')
     | (Throw t, s') => (Throw t, s')
     end).
Proof.
  split; [|split].
  - intros Hn Hc. rewrite (deliver_entry_run entry s Hn), Hc. reflexivity.
  - intros Hn. destruct (get_prop_nullish entry "resource" s Hn) as [e He].
    exists e. unfold deliver_entry. unfold bind at 1. rewrite He. reflexivity.
  - intros Hn Hc. rewrite (deliver_entry_run entry s Hn), Hc. reflexivity.
Qed.

Lemma for_of_chars str (s : state E) :
  for_of (chars str) deliver_entry s = (Return tt, s).
Proof.
  induction str as [|c str IH]; [reflexivity|].
  cbn [chars]. rewrite for_of_cons_run.
  - rewrite deliver_entry_run by reflexivity. cbn. exact IH.
  - rewrite deliver_entry_run by reflexivity. reflexivity.
Qed.

(** X4.  A related type whose bundle gives the inner loop nothing to
    visit (a [null] bundle, no [entry], an empty [entry] array, or an
    [entry] that is not an array) costs its GET and nothing else: the
    iteration ends normally in the state right after the fetch. *)
Theorem type_without_entries type q bundle (s : state E) :
  snd (axios_get E (proxy_url E q) (net s)) = inr bundle ->
  entries_of bundle = [] ->
  process_type (type, q) s = (Return tt, fetched q s)
  /\ results (fetched q s) = results s
  /\ trace (fetched q s) = trace s ++ [EvGet (proxy_url E q) (inr bundle)].
Proof.
  intros Hget Hno. split; [|split].
  - rewrite process_type_run. cbn [snd]. unfold fetch_and_deliver.
    unfold bind at 1. rewrite getFromProxy_run. fold (fetched q s). rewrite Hget.
    destruct (nullish bundle) eqn:Hn.
    + destruct (get_prop_nullish bundle "entry" (fetched q s) Hn) as [e He].
      unfold bind. rewrite He. reflexivity.
    + unfold bind at 1. rewrite (get_prop_run _ _ _ Hn).
      unfold entries_of in Hno.
      destruct (prop bundle "entry") as [ | | b | n | str | ref items | ref fields];
        try reflexivity.
      * destruct b; reflexivity.
      * cbn [truthy]. destruct (negb (n =? 0)%Z); reflexivity.
      * cbn [truthy]. destruct (negb (str =? "")%string); [|reflexivity].
        unfold bind. cbn [iterate ret]. rewrite for_of_chars. reflexivity.
      * subst items. reflexivity.
  - reflexivity.
  - unfold fetched, with_net. cbn. rewrite Hget. reflexivity.
Qed.

Lemma backoff_delivery_events url body msgs :
  forall attempt, Forall (delivery_event url body) (backoff url body attempt msgs).
Proof.
  induction msgs as [|m msgs IH]; intros attempt; cbn [backoff].
  - constructor.
  - constructor; [split; reflexivity|]. constructor; [exact I|]. apply IH.
Qed.

Lemma total_wait_backoff url body msgs :
  length msgs <= 3 -> total_wait (backoff url body 0 msgs) <= 3000.
Proof.
  intros H. unfold total_wait. rewrite waits_backoff.
  destruct msgs as [|a [|b [|c [|d msgs]]]]; cbn in *; lia.
Qed.

(** X5.  One delivery changes nothing but the peers and the trace, to
    which it appends PUTs of the resource as it is, all to one URL, and
    waits: at most 3 PUTs, of which at most one succeeds, and at most
    3000 ms of waiting. *)
Theorem delivery_is_verbatim_and_bounded resource (s : state E) :
  exists evs url,
    snd (putToNode resource s) = with_net (net (snd (putToNode resource s))) evs s
    /\ Forall (delivery_event url resource) evs
    /\ put_attempts evs <= 3
    /\ delivered evs <= 1
    /\ total_wait evs <= 3000.
Proof.
  assert (Hz : forall url msgs a, delivered (backoff url resource a msgs) = 0).
  { intros url msgs. induction msgs as [|m msgs IH]; intros a; cbn; auto. }
  destruct (putToNode_run resource s) as [[e ->] | (sType & sId & H)].
  - exists [], ""%string. cbn [snd]. rewrite with_net_nil.
    repeat split; auto. cbn. lia.
  - inversion H as [msgs w' status Hf Hlen Hok Heq | msgs w' Hf Hlen Heq];
      unfold MAX_RETRIES in Hlen.
    + exists (backoff (node_url E sType sId) resource 0 msgs
              ++ [EvPut (node_url E sType sId) resource (inr status)]),
             (node_url E sType sId).
      repeat split.
      * apply Forall_app. split; [apply backoff_delivery_events|].
        constructor; [split; reflexivity | constructor].
      * rewrite put_attempts_app, put_attempts_backoff. cbn. lia.
      * rewrite delivered_app, Hz. cbn. lia.
      * unfold total_wait. rewrite waits_app. cbn [waits]. rewrite app_nil_r.
        apply total_wait_backoff. lia.
    + exists (backoff (node_url E sType sId) resource 0 msgs), (node_url E sType sId).
      repeat split.
      * apply backoff_delivery_events.
      * rewrite put_attempts_backoff. lia.
      * rewrite Hz. lia.
      * apply total_wait_backoff. lia.
Qed.

End EdgeCases.

(* ================================================================== *)
(** ** The cost of one event, and what makes two events the same *)

Section CostAndIdentity.

Context {E : Env}.

Lemma fam_of_spec {A} k (m : M E A) : spec true k m -> fetches_at_most 0 m.
Proof.
  intros H s. destruct (H s) as (_ & _ & _ & _ & evs & rs & H5 & _ & _ & H8).
  exists evs. split; [exact H5|]. rewrite H8 by reflexivity. cbn. lia.
Qed.

Lemma fam_weaken {A} n n' (m : M E A) :
  n <= n' -> fetches_at_most n m -> fetches_at_most n' m.
Proof.
  intros Hle H s. destruct (H s) as (evs & H1 & H2). exists evs. split; [exact H1 | lia].
Qed.

Lemma fam_bind {A B} a b (m : M E A) (f : A -> M E B) :
  fetches_at_most a m -> (forall x, fetches_at_most b (f x)) ->
  fetches_at_most (a + b) (bind m f).
Proof.
  intros Hm Hf s. unfold bind. destruct (Hm s) as (evs & H1 & H2).
  destruct (m s) as [[x|t] s1]; cbn [snd] in *.
  - destruct (Hf x s1) as (evs' & G1 & G2). exists (evs ++ evs').
    rewrite G1, H1, app_assoc, fetches_app, length_app. split; [reflexivity | lia].
  - exists evs. split; [exact H1 | lia].
Qed.

Lemma fam_try_catch {A} a b (m : M E A) (h : thrown -> M E A) :
  fetches_at_most a m -> (forall t, fetches_at_most b (h t)) ->
  fetches_at_most (a + b) (try_catch m h).
Proof.
  intros Hm Hh s. unfold try_catch. destruct (Hm s) as (evs & H1 & H2).
  destruct (m s) as [[x|t] s1]; cbn [snd] in *.
  - exists evs. split; [exact H1 | lia].
  - destruct (Hh t s1) as (evs' & G1 & G2). exists (evs ++ evs').
    rewrite G1, H1, app_assoc, fetches_app, length_app. split; [reflexivity | lia].
Qed.

Lemma fam_getFromProxy path : fetches_at_most (E := E) 1 (getFromProxy path).
Proof.
  intros s. rewrite getFromProxy_run. cbn [snd]. eexists. split; [reflexivity|].
  cbn. lia.
Qed.

Lemma fam_push_delivery resource :
  fetches_at_most (E := E) 0 (status <- putToNode resource ;; results_push status).
Proof. apply (fam_of_spec 0), spec_push_last, spec_putToNode. Qed.

Lemma fam_replicate_encounter uuid : fetches_at_most (E := E) 1 (replicate_encounter uuid).
Proof.
  unfold replicate_encounter.
  apply (fam_bind 0 1); [apply (fam_of_spec 0), spec_subst|]; intros u.
  apply (fam_bind 1 0); [apply fam_getFromProxy|]; intros encounter.
  apply (fam_of_spec 0).
  apply (spec_bind_push (fun _ => ret encounter)); [apply spec_putToNode | apply spec_ret].
Qed.

Lemma fam_replicate_patient encounter :
  fetches_at_most (E := E) 1 (replicate_patient encounter).
Proof.
  unfold replicate_patient.
  apply (fam_bind 0 1); [apply (fam_of_spec 0), spec_patientId_of|]; intros patientId.
  destruct (truthy patientId); [|apply (fam_weaken 0 1); [lia|apply (fam_of_spec 0), spec_ret]].
  apply (fam_bind 0 1); [apply (fam_of_spec 0), spec_subst|]; intros p.
  apply (fam_bind 1 0); [apply fam_getFromProxy|]; intros patient.
  apply fam_push_delivery.
Qed.

Lemma fam_related_loop u :
  fetches_at_most (E := E) 11 (for_of (resourceQueries_of u) process_type).
Proof.
  intros s. destruct (for_of_process_type_fetches (resourceQueries_of u) s) as (evs & H1 & H2).
  exists evs. split; [exact H1|]. rewrite H2. cbn. lia.
Qed.

Lemma fam_replicate_related uuid : fetches_at_most (E := E) 11 (replicate_related uuid).
Proof.
  intros s. destruct (ToString uuid) as [u|] eqn:Hu.
  - rewrite (replicate_related_run uuid u s Hu). cbn [snd]. apply fam_related_loop.
  - exists []. rewrite app_nil_r. split; [|cbn; lia].
    unfold replicate_related, resourceQueries, bind, subst. rewrite Hu. reflexivity.
Qed.

Lemma fam_replicate uuid : fetches_at_most (E := E) 13 (replicate uuid).
Proof.
  unfold replicate.
  apply (fam_bind 1 12); [apply fam_replicate_encounter|]; intros encounter.
  apply (fam_bind 1 11); [apply fam_replicate_patient|]; intros _.
  apply fam_replicate_related.
Qed.

(** X9.  One request sends at most 13 GETs to the proxy: the Encounter,
    its Patient and the eleven related types. *)
Theorem at_most_thirteen_fetches body (s : state E) :
  exists evs,
    trace (snd (handler body s)) = trace s ++ evs
    /\ length (fetches evs) <= 13.
Proof.
  destruct (handler_frame body s) as [Hsame | (ref & fields & -> & Ht & Hs & _)].
  - exists []. rewrite Hsame, app_nil_r. split; [reflexivity | cbn; lia].
  - rewrite handler_admitted by assumption.
    set (uuid := lookup "uuid" fields).
    assert (Hfam : fetches_at_most (E := E) 13 (try_catch (replicate uuid) handler_catch)).
    { apply (fam_try_catch 13 0); [apply fam_replicate|].
      intros t. apply (fam_of_spec 0). unfold handler_catch.
      apply spec_bind; [apply spec_message|]; intros msg. apply spec_ret. }
    destruct (Hfam (recorded uuid s)) as (evs & H1 & H2).
    eexists (_ :: evs). rewrite H1. cbn [recorded trace]. rewrite <- app_assoc.
    split; [reflexivity|]. cbn. exact H2.
Qed.

(** An admitted request starts with its write and the GET of the
    Encounter. *)
Lemma admitted_fetches_first ref fields u (s : state E) :
  truthy (lookup "uuid" fields) = true ->
  Set_has (seen s) (lookup "uuid" fields) = false ->
  ToString (lookup "uuid" fields) = Some u ->
  exists resp content answer evs,
    fst (handler (VObj ref fields) s) = Return resp
    /\ resp <> duplicate_response (lookup "uuid" fields)
    /\ trace (snd (handler (VObj ref fields) s))
       = trace s ++ EvWriteFile SEEN_FILE content
                 :: EvGet (proxy_url E ("/Encounter/" ++ u)) answer :: evs.
Proof.
  intros H Hs Hu. set (uuid := lookup "uuid" fields).
  destruct (replicate_starts_with_fetch uuid u (recorded uuid s) Hu) as [evs Ht].
  destruct (handler_handled ref fields s H Hs) as [s' Hr | e s' Hr];
    fold uuid in Hr; rewrite Hr in Ht; cbn [snd] in Ht |- *;
    eexists _, _, _, evs; (split; [reflexivity|]); (split; [discriminate|]);
    rewrite Ht; cbn [recorded trace net]; rewrite <- app_assoc; reflexivity.
Qed.

(** X10.  Duplicates are told apart by the identity [Set] uses, not by
    the Encounter fetched: two identifiers that are not the same for
    [Set] but print the same text (the number 7 and the string made of
    the digit 7, say) are both admitted, and the second request fetches
    the same Encounter URL again. *)
Theorem same_text_is_not_same_id ref1 fields1 ref2 fields2 u (s : state E) :
  truthy (lookup "uuid" fields1) = true ->
  truthy (lookup "uuid" fields2) = true ->
  Set_has (seen s) (lookup "uuid" fields1) = false ->
  Set_has (seen s) (lookup "uuid" fields2) = false ->
  SameValueZero (lookup "uuid" fields2) (lookup "uuid" fields1) = false ->
  ToString (lookup "uuid" fields1) = Some u ->
  ToString (lookup "uuid" fields2) = Some u ->
  let s1 := snd (handler (VObj ref1 fields1) s) in
  let second := handler (VObj ref2 fields2) s1 in
  exists resp content1 answer1 evs1 content2 answer2 evs2,
    trace s1 = trace s ++ EvWriteFile SEEN_FILE content1
                 :: EvGet (proxy_url E ("/Encounter/" ++ u)) answer1 :: evs1
    /\ fst second = Return resp
    /\ resp <> duplicate_response (lookup "uuid" fields2)
    /\ trace (snd second)
       = trace s1 ++ EvWriteFile SEEN_FILE content2
                  :: EvGet (proxy_url E ("/Encounter/" ++ u)) answer2 :: evs2.
Proof.
  intros Ht1 Ht2 Hs1 Hs2 Hdiff Hu1 Hu2 s1 second.
  destruct (admitted_fetches_first ref1 fields1 u s Ht1 Hs1 Hu1)
    as (resp1 & content1 & answer1 & evs1 & _ & _ & Htr1).
  assert (Hs2' : Set_has (seen s1) (lookup "uuid" fields2) = false).
  { destruct (handler_admitted_frame ref1 fields1 s Ht1 Hs1) as [Hseen _].
    unfold s1. rewrite Hseen, Set_has_app, Hs2. cbn. rewrite Hdiff. reflexivity. }
  destruct (admitted_fetches_first ref2 fields2 u s1 Ht2 Hs2' Hu2)
    as (resp & content2 & answer2 & evs2 & Hresp & Hne & Htr2).
  exists resp, content1, answer1, evs1, content2, answer2, evs2.
  repeat split; assumption.
Qed.

End CostAndIdentity.

(* ================================================================== *)
(** ** The instrumented copy against the main program *)

Section TwoCopies.

Context {E : Env}.

Local Abbreviation agree := (agree (E := E)) (only parsing).

Lemma no_waits_app a b : no_waits (a ++ b) = no_waits a ++ no_waits b.
Proof.
  induction a as [|[] a IH]; cbn; rewrite ?IH; reflexivity.
Qed.

Ltac same_states :=
  repeat split; cbn; auto; try congruence;
  match goal with
  | Ht : no_waits _ = no_waits _ |- _ =>
      rewrite ?no_waits_app, ?Ht; cbn; rewrite ?app_nil_r; reflexivity
  end.

Lemma same_but_waits_refl (s : state E) : same_but_waits s s.
Proof. repeat split. Qed.

(** A computation that leaves the state alone and whose outcome does
    not depend on it agrees with itself. *)
Lemma agree_pure {A} (m : M E A) :
  (forall s, snd (m s) = s) ->
  (forall s1 s2, fst (m s1) = fst (m s2)) ->
  agree m m.
Proof.
  intros Hs Ho s1 s2 HR. rewrite !Hs. split; [apply Ho | exact HR].
Qed.

Lemma agree_ret {A} (a : A) : agree (ret a) (ret a).
Proof. apply agree_pure; reflexivity. Qed.

Lemma agree_throw {A} t : agree (throw (A := A) t) (throw t).
Proof. apply agree_pure; reflexivity. Qed.

Lemma agree_get_prop v p : agree (get_prop v p) (get_prop v p).
Proof. apply agree_pure; intros; destruct v; reflexivity. Qed.

Lemma agree_opt_prop v p : agree (opt_prop v p) (opt_prop v p).
Proof.
  apply agree_pure; intros; rewrite !opt_prop_run; reflexivity.
Qed.

Lemma agree_message t : agree (message t) (message t).
Proof. apply agree_pure; intros; destruct t; reflexivity. Qed.

Lemma agree_subst v : agree (subst v) (subst v).
Proof. apply agree_pure; intros; unfold subst; destruct (ToString v); reflexivity. Qed.

Lemma agree_iterate v : agree (iterate v) (iterate v).
Proof. apply agree_pure; intros; destruct v; reflexivity. Qed.

Lemma agree_results_length : agree results_length results_length.
Proof.
  intros s1 s2 HR. split; [|exact HR].
  destruct HR as (_ & _ & _ & Hr & _). cbn. rewrite Hr. reflexivity.
Qed.

Lemma agree_results_push x : agree (results_push x) (results_push x).
Proof.
  intros s1 s2 (Hn & Hd & Hs & Hr & Ht). same_states.
Qed.

Lemma agree_axios_get_data url : agree (axios_get_data url) (axios_get_data url).
Proof.
  intros s1 s2 (Hn & Hd & Hs & Hr & Ht). unfold axios_get_data. rewrite Hn.
  destruct (axios_get E url (net s2)) as [w [msg|data]]; cbn;
    same_states.
Qed.

Lemma agree_wait (b : bool) (ms : nat) :
  agree (if b then setTimeout ms else ret tt) (setTimeout ms).
Proof.
  intros s1 s2 (Hn & Hd & Hs & Hr & Ht).
  destruct b; same_states.
Qed.

Lemma agree_bind {A B} (m1 m2 : M E A) (f1 f2 : A -> M E B) :
  agree m1 m2 -> (forall a, agree (f1 a) (f2 a)) -> agree (bind m1 f1) (bind m2 f2).
Proof.
  intros Hm Hf s1 s2 HR. unfold bind. destruct (Hm s1 s2 HR) as [Ho HR'].
  destruct (m1 s1) as [[a|t] s1'], (m2 s2) as [[a'|t'] s2']; cbn [fst snd] in *;
    try discriminate.
  - injection Ho as <-. apply Hf. exact HR'.
  - injection Ho as <-. split; [reflexivity | exact HR'].
Qed.

(** The same when what [m2] returns is known to satisfy [P]. *)
Lemma agree_bind_with {A B} (P : A -> Prop) (m1 m2 : M E A) (f1 f2 : A -> M E B) :
  agree m1 m2 ->
  (forall s a s', m2 s = (Return a, s') -> P a) ->
  (forall a, P a -> agree (f1 a) (f2 a)) ->
  agree (bind m1 f1) (bind m2 f2).
Proof.
  intros Hm HP Hf s1 s2 HR. unfold bind. destruct (Hm s1 s2 HR) as [Ho HR'].
  pose proof (HP s2) as HP2.
  destruct (m1 s1) as [[a|t] s1'], (m2 s2) as [[a'|t'] s2']; cbn [fst snd] in *;
    try discriminate.
  - injection Ho as <-. apply Hf; [eapply HP2; reflexivity | exact HR'].
  - injection Ho as <-. split; [reflexivity | exact HR'].
Qed.

(** A step that only returns, on the left, can be dropped. *)
Lemma agree_skip {A B} (m : M E A) a (f : A -> M E B) (k : M E B) :
  (forall s, m s = (Return a, s)) -> agree (f a) k -> agree (bind m f) k.
Proof.
  intros Hm Hk s1 s2 HR. unfold bind. rewrite Hm. apply Hk. exact HR.
Qed.

Lemma agree_try_catch {A} (m1 m2 : M E A) (h1 h2 : thrown -> M E A) :
  agree m1 m2 -> (forall t, agree (h1 t) (h2 t)) ->
  agree (try_catch m1 h1) (try_catch m2 h2).
Proof.
  intros Hm Hh s1 s2 HR. unfold try_catch. destruct (Hm s1 s2 HR) as [Ho HR'].
  destruct (m1 s1) as [[a|t] s1'], (m2 s2) as [[a'|t'] s2']; cbn [fst snd] in *;
    try discriminate.
  - injection Ho as <-. split; [reflexivity | exact HR'].
  - injection Ho as <-. apply Hh. exact HR'.
Qed.

Lemma agree_for_of {X} (xs : list X) (b1 b2 : X -> M E unit) :
  (forall x, agree (b1 x) (b2 x)) -> agree (for_of xs b1) (for_of xs b2).
Proof.
  intros Hb. induction xs as [|x xs IH]; cbn [for_of].
  - apply agree_ret.
  - apply agree_bind; [apply Hb | intros _; exact IH].
Qed.

(** One attempt: the [catch] of the instrumented closure raises again
    what the PUT raised. *)
Lemma agree_attempt url body :
  agree (try_catch (axios_put_status url body) Debug.log_and_rethrow)
        (axios_put_status url body).
Proof.
  intros s1 s2 (Hn & Hd & Hs & Hr & Ht).
  unfold try_catch, axios_put_status. rewrite Hn.
  destruct (axios_put E url body (net s2)) as [w [msg|status]]; cbn;
    same_states.
Qed.

Lemma agree_retry_step url body N r :
  (forall attempt e,
      agree (Debug.retry_loop
               (try_catch (axios_put_status url body) Debug.log_and_rethrow)
               N r attempt (ThrowErr e))
            (retry_loop (axios_put_status url body) r attempt (ThrowErr e))) ->
  forall attempt lastErr,
    agree
          (Debug.retry_loop
             (try_catch (axios_put_status url body) Debug.log_and_rethrow)
             N (S r) attempt lastErr)
          (retry_loop (axios_put_status url body) (S r) attempt lastErr).
Proof.
  intros IH attempt lastErr. cbn [Debug.retry_loop retry_loop].
  apply agree_try_catch; [apply agree_attempt|].
  intros [|e].
  - intros s1 s2 HR. split; [reflexivity | exact HR].
  - apply agree_bind; [apply agree_message|]; intros _.
    apply agree_bind; [apply agree_wait|]; intros _. apply IH.
Qed.

Lemma agree_retry_loop url body N r :
  forall attempt e,
    agree
          (Debug.retry_loop
             (try_catch (axios_put_status url body) Debug.log_and_rethrow)
             N r attempt (ThrowErr e))
          (retry_loop (axios_put_status url body) r attempt (ThrowErr e)).
Proof.
  induction r as [|r IH]; intros attempt e.
  - intros s1 s2 HR. split; [reflexivity | exact HR].
  - apply agree_retry_step. exact IH.
Qed.

Lemma agree_putToNode resource :
  resource <> VUndef -> agree (Debug.putToNode resource) (putToNode resource).
Proof.
  intros Hne. unfold Debug.putToNode, putToNode.
  apply (agree_skip _ (prop resource "resourceType")); [intros s; apply opt_prop_run|].
  apply (agree_skip _ (prop resource "id")); [intros s; apply opt_prop_run|].
  apply (agree_skip _ tt); [intros s; destruct resource; try reflexivity; contradiction|].
  apply agree_bind; [apply agree_get_prop|]; intros resourceType.
  apply agree_bind; [apply agree_subst|]; intros sType.
  apply agree_bind; [apply agree_get_prop|]; intros id.
  apply agree_bind; [apply agree_subst|]; intros sId.
  apply agree_retry_step. intros attempt e. apply agree_retry_loop.
Qed.

Lemma agree_push_delivery resource :
  resource <> VUndef ->
  agree (status <- Debug.putToNode resource ;; results_push status)
        (status <- putToNode resource ;; results_push status).
Proof.
  intros Hne. apply agree_bind; [apply agree_putToNode, Hne|].
  intros status. apply agree_results_push.
Qed.

Lemma agree_deliver_entry entry :
  agree (Debug.deliver_entry entry) (deliver_entry entry).
Proof.
  unfold Debug.deliver_entry, deliver_entry.
  apply agree_bind; [apply agree_get_prop|]; intros resource.
  destruct resource as [ | | b | n | str | ref items | ref fields].
  1:{ intros s1 s2 HR. split; [reflexivity | exact HR]. }
  all: apply agree_bind; [apply agree_opt_prop|]; intros resourceType.
  all: apply agree_bind;
    [destruct (truthy resourceType); [apply agree_opt_prop | apply agree_ret]|];
    intros id.
  all: destruct (truthy id); [|apply agree_ret].
  all: apply agree_push_delivery; discriminate.
Qed.

Section DataIsDefined.

(** The proxy never answers with [undefined] as data. *)
Hypothesis data_defined : forall url w, snd (axios_get E url w) <> inr VUndef.

Lemma getFromProxy_defined path (s s' : state E) a :
  getFromProxy path s = (Return a, s') -> a <> VUndef.
Proof.
  rewrite getFromProxy_run. intros H Ha. subst a.
  pose proof (data_defined (proxy_url E path) (net s)) as Hd.
  destruct (snd (axios_get E (proxy_url E path) (net s))) as [msg|data];
    [discriminate|].
  injection H as -> _. now apply Hd.
Qed.

Lemma agree_getFromProxy path : agree (Debug.getFromProxy path) (getFromProxy path).
Proof.
  intros s1 s2 (Hn & Hd & Hs & Hr & Ht).
  unfold Debug.getFromProxy, getFromProxy, try_catch, bind, axios_get_data.
  rewrite Hn.
  pose proof (data_defined (proxy_url E path) (net s2)) as Hdef.
  destruct (axios_get E (proxy_url E path) (net s2)) as [w [msg|data]]; cbn in *.
  - same_states.
  - destruct data; try (exfalso; now apply Hdef); cbn;
      same_states.
Qed.

Lemma agree_fetch_and_deliver q :
  agree (Debug.fetch_and_deliver q) (fetch_and_deliver q).
Proof.
  unfold Debug.fetch_and_deliver, fetch_and_deliver.
  apply agree_bind; [apply agree_getFromProxy|]; intros bundle.
  apply agree_bind; [apply agree_get_prop|]; intros entry.
  destruct (truthy entry); [|apply agree_ret].
  apply agree_bind; [apply agree_iterate|]; intros entries.
  apply agree_for_of, agree_deliver_entry.
Qed.

Lemma agree_process_type query : agree (Debug.process_type query) (process_type query).
Proof.
  destruct query as [type q]. unfold Debug.process_type, process_type.
  apply agree_try_catch; [apply agree_fetch_and_deliver|].
  intros t. apply agree_bind; [apply agree_message|]; intros _. apply agree_ret.
Qed.

Lemma agree_replicate_encounter uuid :
  agree (Debug.replicate_encounter uuid) (replicate_encounter uuid).
Proof.
  unfold Debug.replicate_encounter, replicate_encounter.
  apply agree_bind; [apply agree_subst|]; intros u.
  apply (agree_bind_with (fun a => a <> VUndef)).
  - apply agree_getFromProxy.
  - intros s a s'. apply getFromProxy_defined.
  - intros encounter Hne.
    apply agree_bind; [apply agree_putToNode, Hne|]; intros status.
    apply agree_bind; [apply agree_results_push|]; intros _. apply agree_ret.
Qed.

Lemma agree_patientId_of encounter :
  agree (patientId_of encounter) (patientId_of encounter).
Proof.
  unfold patientId_of.
  apply agree_bind; [apply agree_get_prop|]; intros subject.
  destruct (nullish subject); [apply agree_ret|].
  apply agree_bind; [apply agree_get_prop|]; intros reference.
  destruct (nullish reference); [apply agree_ret|].
  destruct reference; try apply agree_throw. apply agree_ret.
Qed.

Lemma agree_replicate_patient encounter :
  agree (Debug.replicate_patient encounter) (replicate_patient encounter).
Proof.
  unfold Debug.replicate_patient, replicate_patient.
  apply agree_bind; [apply agree_patientId_of|]; intros patientId.
  destruct (truthy patientId); [|apply agree_ret].
  apply agree_bind; [apply agree_subst|]; intros p.
  apply (agree_bind_with (fun a => a <> VUndef)).
  - apply agree_getFromProxy.
  - intros s a s'. apply getFromProxy_defined.
  - intros patient Hne. apply agree_push_delivery, Hne.
Qed.

Lemma agree_replicate_related uuid :
  agree (Debug.replicate_related uuid) (replicate_related uuid).
Proof.
  unfold Debug.replicate_related, replicate_related.
  apply agree_bind.
  { unfold resourceQueries. apply agree_bind; [apply agree_subst|]; intros u.
    apply agree_ret. }
  intros queries.
  apply agree_bind; [apply agree_for_of, agree_process_type|]; intros _.
  apply agree_bind; [apply agree_results_length|]; intros sent. apply agree_ret.
Qed.

Lemma agree_replicate uuid : agree (Debug.replicate uuid) (replicate uuid).
Proof.
  unfold Debug.replicate, replicate.
  apply agree_bind; [apply agree_replicate_encounter|]; intros encounter.
  apply agree_bind; [apply agree_replicate_patient|]; intros _.
  apply agree_replicate_related.
Qed.

Lemma agree_seen_add v : agree (seen_add v) (seen_add v).
Proof.
  intros s1 s2 (Hn & Hd & Hs & Hr & Ht). same_states.
Qed.

Lemma agree_results_new : agree results_new results_new.
Proof.
  intros s1 s2 (Hn & Hd & Hs & Hr & Ht). same_states.
Qed.

Lemma agree_saveSeen : agree saveSeen saveSeen.
Proof.
  intros s1 s2 (Hn & Hd & Hs & Hr & Ht). unfold saveSeen. rewrite Hs, Hd.
  destruct (fs_writeFile E SEEN_FILE (JSON_stringify E (VArr 0 (seen s2))) (disk s2))
    as [d err].
  same_states.
Qed.

Lemma agree_admission uuid (k1 k2 : M E response) :
  agree k1 k2 ->
  agree (seen_add uuid ;;; saveSeen ;;; results_new ;;; k1)
        (seen_add uuid ;;; saveSeen ;;; results_new ;;; k2).
Proof.
  intros Hk.
  apply agree_bind; [apply agree_seen_add|]; intros _.
  apply agree_bind; [apply agree_saveSeen|]; intros _.
  apply agree_bind; [apply agree_results_new|]; intros _. exact Hk.
Qed.

Lemma agree_handler body : agree (Debug.handler body) (handler body).
Proof.
  unfold Debug.handler, handler.
  destruct body as [ | | b | n | str | ref items | ref fields].
  1,2: intros s1 s2 HR; split; [reflexivity | exact HR].
  all: apply agree_bind; [apply agree_get_prop|]; intros uuid.
  all: apply (agree_skip _ tt); [intros s; reflexivity|].
  all: destruct (negb (truthy uuid)); [apply agree_ret|].
  all: apply agree_bind;
    [intros s1 s2 HR; split; [|exact HR];
     destruct HR as (_ & _ & Hs & _); cbn; rewrite Hs; reflexivity|];
    intros duplicate.
  all: destruct duplicate; [apply agree_ret|].
  all: apply agree_admission.
  all: apply agree_try_catch; [apply agree_replicate|]; intros t.
  all: unfold handler_catch; apply agree_bind; [apply agree_message|]; intros msg.
  all: apply agree_ret.
Qed.

End DataIsDefined.

(** X11.  As long as the proxy never resolves a GET with [undefined] as
    its data, the instrumented copy of the handler gives every request
    the answer the main handler gives, and leaves the same peers, disk,
    [seen], [results] and trace, the waits of the trace apart: the two
    copies send the same GETs, PUTs and writes in the same order. *)
Theorem instrumented_copy_agrees body (s : state E) :
  (forall url w, snd (axios_get E url w) <> inr VUndef) ->
  fst (Debug.handler body s) = fst (handler body s)
  /\ same_but_waits (snd (Debug.handler body s)) (snd (handler body s)).
Proof.
  intros H. apply (agree_handler H body s s), same_but_waits_refl.
Qed.

(** X12.  When what the file system and the parser raise are [Error]
    objects, the start-up load of the instrumented copy does exactly
    what the load of the main program does; in particular it does not
    raise. *)
Theorem instrumented_load_agrees (s : state E) :
  (forall d, fs_readFileSync E SEEN_FILE d <> inl ThrowNull) ->
  (forall data, JSON_parse E data <> inl ThrowNull) ->
  Debug.load_seen s = load_seen s
  /\ fst (Debug.load_seen s) = Return tt.
Proof.
  intros Hread Hparse.
  assert (Heq : Debug.load_seen s = load_seen s).
  { destruct s as [w d sn rs tr].
    unfold Debug.load_seen, load_seen, bind, try_catch, seen_assign, modify,
      existsSync, readFileSync, parse, new_Set, iterate, bind, ret, throw. cbn.
    destruct (fs_existsSync E SEEN_FILE d); cbn; [|reflexivity].
    pose proof (Hread d) as Hr.
    destruct (fs_readFileSync E SEEN_FILE d) as [[|e]|data]; cbn;
      [congruence | reflexivity |].
    pose proof (Hparse data) as Hp.
    destruct (JSON_parse E data) as [[|e]|v]; cbn; [congruence | reflexivity |].
    destruct v; reflexivity. }
  split; [exact Heq|]. rewrite Heq. apply load_seen_returns.
Qed.

End TwoCopies.

(* ================================================================== *)
(** ** The theorems on the worked scenario *)

Module ScenarioFacts.
Import Scenario.

(** The scenario of the specification: [enc-1], with its Patient, two
    Observations and a Condition query that fails, is answered [ok]
    with four resources sent. *)
Example enc1_replicated :
  fst (handler (post "enc-1") (start []))
  = Return (ok_response (VStr "enc-1") 4).
Proof. vm_compute. reflexivity. Qed.

Lemma retryRequest_attempts_and_waits_witness :
  let s := start [busy; busy; down] in
  retryRequest (axios_put_status "node/fhir/Patient/p" pat1) 3 s
  = (Throw (AxiosError "connect ECONNREFUSED"),
     with_net ([] : World env)
              [EvPut "node/fhir/Patient/p" pat1 busy; EvWait 500;
               EvPut "node/fhir/Patient/p" pat1 busy; EvWait 1000;
               EvPut "node/fhir/Patient/p" pat1 down; EvWait 1500] s)
  /\ waits (trace (snd (retryRequest (axios_put_status "node/fhir/Patient/p" pat1) 3 s)))
     = [500; 1000; 1500].
Proof.
  intros s.
  assert (Hf : failing_puts (E := env) "node/fhir/Patient/p" pat1
                 ["Request failed with status code 503";
                  "Request failed with status code 503";
                  "connect ECONNREFUSED"] (net s) []).
  { cbn. repeat split. }
  destruct (@retryRequest_attempts_and_waits env _ _ 3 _ s _ Hf) as [_ Hx].
  destruct (Hx eq_refl) as (H1 & _ & _).
  split; [exact H1 | rewrite H1; reflexivity].
Defined.

Lemma retryRequest_raises_last_error_witness :
  fst (retryRequest (axios_put_status "node/fhir/Patient/p" pat1) 3
                    (start [busy; busy; down]))
  = Throw (AxiosError "connect ECONNREFUSED").
Proof.
  apply (@retryRequest_raises_last_error env "node/fhir/Patient/p" pat1 3
           "Request failed with status code 503"
           ["Request failed with status code 503"; "connect ECONNREFUSED"]
           (start [busy; busy; down]) []).
  - cbn. repeat split.
  - reflexivity.
Defined.

Lemma falsy_uuid_rejected_witness :
  handler (VObj 0 [("uuid", VNum 0)]) (start [])
  = (Return missing_response, start [])
  /\ handler (VObj 0 [("uuid", VStr "")]) (start [])
     = (Return missing_response, start []).
Proof.
  split.
  - apply (@falsy_uuid_rejected env (VObj 0 [("uuid", VNum 0)]) (start []));
      reflexivity.
  - apply (@falsy_uuid_rejected env (VObj 0 [("uuid", VStr "")]) (start []));
      reflexivity.
Defined.

Lemma admission_idempotent_witness :
  let s1 := snd (handler (post "enc-1") (start [])) in
  let s2 := serve [post "enc-2"; post "enc-3"] s1 in
  handler (post "enc-1") s2 = (Return (duplicate_response (VStr "enc-1")), s2).
Proof.
  intros s1 s2.
  destruct (@admission_idempotent env 0 [("uuid", VStr "enc-1")] "enc-1" (start [])
              eq_refl eq_refl eq_refl) as [_ Hlater].
  destruct (Hlater [post "enc-2"; post "enc-3"] 0 [("uuid", VStr "enc-1")] eq_refl)
    as [Hdup _].
  exact Hdup.
Defined.

Lemma seen_append_only_witness :
  let s' := snd (handler (post "enc-2") (start [])) in
  fst (handler (post "enc-2") (start []))
  = Return (error_response "Request failed with status code 404")
  /\ seen s' = [VStr "enc-2"]
  /\ handler (post "enc-2") s' = (Return (duplicate_response (VStr "enc-2")), s').
Proof.
  intros s'.
  destruct (@seen_append_only env 0 [("uuid", VStr "enc-2")] (start [])
              eq_refl eq_refl) as ((_ & Hseen & _) & _ & Hnever).
  split; [reflexivity|]. split; [exact Hseen|].
  exact (Hnever [] 0 [("uuid", VStr "enc-2")] eq_refl).
Defined.

Lemma root_fatal_related_isolated_witness :
  handler (post "enc-2") (start [])
  = (Return (error_response "Request failed with status code 404"),
     fetched "/Encounter/enc-2" (recorded (VStr "enc-2") (start [])))
  /\ results (fetched "/Encounter/enc-2" (recorded (VStr "enc-2") (start []))) = []
  /\ (exists evs,
         handler (post "enc-1") (start [])
         = (Return (ok_response (VStr "enc-1") (delivered evs)),
            snd (handler (post "enc-1") (start [])))
         /\ delivered evs = 4).
Proof.
  destruct (@root_fatal_related_isolated env 0 [("uuid", VStr "enc-2")] "enc-2"
              (start []) eq_refl eq_refl eq_refl) as (Hroot & _).
  destruct (Hroot "Request failed with status code 404" eq_refl) as (H1 & _ & H2 & _).
  split; [exact H1|]. split; [exact H2|].
  destruct (@root_fatal_related_isolated env 0 [("uuid", VStr "enc-1")] "enc-1"
              (start []) eq_refl eq_refl eq_refl) as (_ & _ & _ & Hok).
  destruct (Hok enc1
              (snd (replicate_encounter (VStr "enc-1") (recorded (VStr "enc-1") (start []))))
              (snd (replicate_patient enc1
                      (snd (replicate_encounter (VStr "enc-1")
                              (recorded (VStr "enc-1") (start []))))))
              eq_refl eq_refl) as (evs & Hh & _ & _).
  exists evs. unfold post. split.
  - rewrite Hh. reflexivity.
  - assert (Hfst : fst (handler (post "enc-1") (start []))
                   = Return (ok_response (VStr "enc-1") 4)) by (vm_compute; reflexivity).
    unfold post in Hfst. rewrite Hh in Hfst. cbn [fst] in Hfst. injection Hfst as Hn.
    apply Nat2Z.inj. exact Hn.
Defined.

Lemma delivery_failure_ends_only_its_type_witness :
  let s1 := snd (for_of [obs 36 "o3"] deliver_entry (fetched three_observations second_fails)) in
  let s2 := snd (deliver_entry (obs 38 "o4") s1) in
  process_type ("Observation", three_observations) second_fails = (Return tt, s2)
  /\ results s2 = [200%Z]
  /\ put_attempts (trace s2) = 4
  /\ fst (for_of (resourceQueries_of "enc-3") process_type second_fails) = Return tt.
Proof.
  intros s1 s2.
  destruct (@delivery_failure_ends_only_its_type env
              "Observation" three_observations
              (bundle_of 34 [obs 36 "o3"; obs 38 "o4"; obs 40 "o5"]) 35
              [obs 36 "o3"] (obs 38 "o4") [obs 40 "o5"]
              (AxiosError "connect ECONNREFUSED")
              second_fails s1 s2
              eq_refl eq_refl eq_refl eq_refl eq_refl)
    as (Hpt & Hres & _ & Hrest).
  split; [exact Hpt|]. split; [reflexivity|]. split; [reflexivity|].
  destruct (Hrest (tl (resourceQueries_of "enc-3"))) as (Hgo & Hret & _).
  change (resourceQueries_of "enc-3")
    with (("Observation", three_observations) :: tl (resourceQueries_of "enc-3")).
  rewrite Hgo. exact Hret.
Defined.

Lemma subject_optional_witness :
  handler (post "enc-3") (start [])
  = (Return (ok_response (VStr "enc-3") 4), snd (handler (post "enc-3") (start [])))
  /\ fetches (trace (snd (handler (post "enc-3") (start []))))
     = proxy_url env "/Encounter/enc-3"
       :: map (fun query => proxy_url env (snd query)) (resourceQueries_of "enc-3")
  /\ fst (handler (post "enc-5") (start []))
     = Return (error_response "Request failed with status code 404").
Proof.
  pose (s1 := snd (replicate_encounter (VStr "enc-3") (recorded (VStr "enc-3") (start [])))).
  destruct (@subject_optional env 0 [("uuid", VStr "enc-3")] "enc-3" enc3 (start []) s1
              eq_refl eq_refl eq_refl eq_refl) as (Hnone & _).
  destruct (Hnone eq_refl) as (_ & Hh & _ & _).
  split; [|split].
  - unfold post. rewrite Hh. reflexivity.
  - vm_compute. reflexivity.
  - pose (s5 := snd (replicate_encounter (VStr "enc-5") (recorded (VStr "enc-5") (start [])))).
    destruct (@subject_optional env 0 [("uuid", VStr "enc-5")] "enc-5" enc5 (start []) s5
                eq_refl eq_refl eq_refl eq_refl) as (_ & Hnamed).
    assert (Hne : "pat-5"%string <> ""%string) by discriminate.
    destruct (Hnamed "Patient/pat-5"%string "pat-5"%string eq_refl eq_refl eq_refl Hne)
      as (Hfetch & _).
    destruct (Hfetch "Request failed with status code 404"%string eq_refl) as (Hh5 & _).
    change (post "enc-5") with (VObj 0 [("uuid", VStr "enc-5")]).
    rewrite Hh5. reflexivity.
Defined.

(** The instrumented copy on the same script: two waits, none after
    the third attempt. *)
Example debug_retryRequest_waits :
  waits (trace (snd (Debug.retryRequest
                       (axios_put_status "node/fhir/Patient/p" pat1) 3
                       (start [busy; busy; down]))))
  = [500; 1000].
Proof. vm_compute. reflexivity. Qed.

(** [seen] compares arrays and objects by identity: a second array with
    the same content, at another address, is another identifier, while
    the first array itself is a duplicate. *)
Remark equal_arrays_are_distinct_ids :
  let first := VObj 0 [("uuid", VArr 1 [VStr "enc-1"])] in
  let second := VObj 2 [("uuid", VArr 3 [VStr "enc-1"])] in
  let s1 := snd (handler first (start [])) in
  fst (handler second s1) = Return (ok_response (VArr 3 [VStr "enc-1"]) 4)
  /\ fst (handler first s1) = Return (duplicate_response (VArr 1 [VStr "enc-1"])).
Proof. split; vm_compute; reflexivity. Qed.

Lemma patientId_is_last_segment_witness :
  patientId_of enc1 (start []) = (Return (VStr "pat-1"), start []).
Proof.
  destruct (@patientId_is_last_segment env enc1 "Patient/pat-1" "Patient" "pat-1"
              (start []) eq_refl eq_refl eq_refl eq_refl (or_intror eq_refl))
    as (Hid & _).
  exact Hid.
Defined.

Lemma type_without_entries_witness :
  process_type ("Procedure", "/Procedure?encounter=enc-1") (start [])
  = (Return tt, fetched "/Procedure?encounter=enc-1" (start [])).
Proof.
  destruct (@type_without_entries env "Procedure" "/Procedure?encounter=enc-1"
              empty_bundle (start []) eq_refl eq_refl) as (Hrun & _).
  exact Hrun.
Defined.

Lemma restart_keeps_duplicates_witness :
  let s1 := snd (load_seen (boot (Some "enc-1,enc-2"))) in
  seen s1 = [VStr "enc-1"; VStr "enc-2"]
  /\ handler (post "enc-2") s1 = (Return (duplicate_response (VStr "enc-2")), s1).
Proof.
  intros s1. split; [reflexivity|].
  destruct (@restart_keeps_duplicates durable "enc-1,enc-2" 0
              [VStr "enc-1"; VStr "enc-2"] 0 [("uuid", VStr "enc-2")]
              (boot (Some "enc-1,enc-2")) eq_refl eq_refl eq_refl eq_refl eq_refl)
    as (Hdup & _).
  exact Hdup.
Defined.

Lemma persisted_seen_is_restored_witness :
  let s' := snd (handler (post "enc-2") running) in
  disk s' = Some "enc-1,enc-2"%string
  /\ seen (snd (load_seen (boot (disk s')))) = seen s'.
Proof.
  intros s'. split; [reflexivity|].
  destruct (@persisted_seen_is_restored durable 0 [("uuid", VStr "enc-2")] 0
              running (boot (disk s'))
              eq_refl eq_refl eq_refl eq_refl eq_refl eq_refl eq_refl)
    as (Hseen & _).
  exact Hseen.
Defined.

Lemma same_text_is_not_same_id_witness :
  let s1 := snd (handler (VObj 0 [("uuid", VNum 7)]) (start [])) in
  seen (snd (handler (VObj 0 [("uuid", VStr "7")]) s1)) = [VNum 7; VStr "7"]
  /\ exists resp,
       fst (handler (VObj 0 [("uuid", VStr "7")]) s1) = Return resp
       /\ resp <> duplicate_response (VStr "7").
Proof.
  intros s1. split; [reflexivity|].
  destruct (@same_text_is_not_same_id env 0 [("uuid", VNum 7)] 0 [("uuid", VStr "7")]
              "7" (start []) eq_refl eq_refl eq_refl eq_refl eq_refl eq_refl eq_refl)
    as (resp & _ & _ & _ & _ & _ & _ & _ & Hresp & Hne & _).
  exists resp. split; assumption.
Defined.

Lemma get_is_defined : forall url w, snd (axios_get env url w) <> inr VUndef.
Proof.
  intros url w. cbn. unfold get.
  repeat match goal with
         | |- context [String.eqb ?a ?b] => destruct (String.eqb a b)
         end; discriminate.
Defined.

Lemma instrumented_copy_agrees_witness :
  fst (Debug.handler (post "enc-1") (start [busy; busy]))
  = fst (handler (post "enc-1") (start [busy; busy]))
  /\ same_but_waits (snd (Debug.handler (post "enc-1") (start [busy; busy])))
                    (snd (handler (post "enc-1") (start [busy; busy]))).
Proof.
  apply (@instrumented_copy_agrees env (post "enc-1") (start [busy; busy])
           get_is_defined).
Defined.

Lemma instrumented_load_agrees_witness :
  Debug.load_seen (boot (Some "enc-1,enc-2")) = load_seen (boot (Some "enc-1,enc-2")).
Proof.
  refine (proj1 (@instrumented_load_agrees durable (boot (Some "enc-1,enc-2")) _ _)).
  - intros [content|]; discriminate.
  - intros data. discriminate.
Defined.

Lemma debug_retryRequest_retry_bound_witness :
  let s := start [busy; busy; down] in
  Debug.retryRequest (axios_put_status "node/fhir/Patient/p" pat1) 3 s
  = (Throw (AxiosError "connect ECONNREFUSED"),
     with_net ([] : World env)
              [EvPut "node/fhir/Patient/p" pat1 busy; EvWait 500;
               EvPut "node/fhir/Patient/p" pat1 busy; EvWait 1000;
               EvPut "node/fhir/Patient/p" pat1 down] s).
Proof.
  intros s.
  assert (Hf : failing_puts (E := env) "node/fhir/Patient/p" pat1
                 ["Request failed with status code 503";
                  "Request failed with status code 503";
                  "connect ECONNREFUSED"] (net s) []).
  { cbn. repeat split. }
  destruct (@debug_retryRequest_retry_bound env _ _ 3 _ s _ Hf) as [_ Hx].
  assert (Hpos : 0 < 3) by (repeat constructor).
  destruct (Hx eq_refl Hpos) as (H1 & _ & _).
  exact H1.
Defined.

End ScenarioFacts.
